(** * Luton-Sellars hot flow stress model: embedding and properties

    Shallow embedding of [LutonSellarsHotFlowStressModelling.ipynb]:
    the Ludwik hardening law, the Avrami recrystallisation law, the
    [Portion] container, the incremental solver [luton_sellars_solve]
    and the loop over strain rates that builds the combined table.

    Numbers.  The notebook computes with Python floats.  There are two
    embeddings.

    The main one is over the real numbers [R]: every [+], [-], [*],
    [/], [**] and [np.exp] is the exact operation, with no rounding, no
    overflow and no NaN.  What is proved about it is a statement about
    the algorithm in exact arithmetic, and is said to be so.

    [Module Binary64] is the same solver on IEEE 754 binary64, the
    arithmetic of Python floats, with [OverflowError] of [**] and with
    infinities and NaN.  It leaves out the flow-stress column, and it
    has a value for [np.exp] only where IEEE 754 fixes one; a run that
    needs another value of [np.exp] ends in [Unknown].  It is evaluated
    on concrete inputs to show where the code leaves exact arithmetic.

    Control.  The [while] loop is a recursion on a fuel counter; one
    unit of fuel is one execution of the loop body.  A run that needs
    more fuel than it is given ends in [OutOfFuel].  Python exceptions
    are the [Raise] outcome. *)

From Stdlib Require Import Reals Lra Lia List ZArith.
From Stdlib Require PrimFloat.
Import ListNotations.

Open Scope R_scope.

(** ** Outcomes of a call *)

Inductive Exception : Type :=
| ZeroDivisionError
| ValueError.

Inductive Outcome (A : Type) : Type :=
| Ok (a : A)
| Raise (e : Exception)
| OutOfFuel.

Arguments Ok {A} a.
Arguments Raise {A} e.
Arguments OutOfFuel {A}.

(** ** Constitutive laws (cells 24, 27, 30) *)

Definition ludvig_k0 : R := 100.
Definition ludvig_n : R := 0.2.

(** [ludvig_k0 * (strain + 0.01) ** ludvig_n].  [Rpower] is the real
    power for a positive base, that is for [strain > -0.01], which
    covers every strain of a run with a positive [strain_step].  For a
    base of 0 or below the source gives 0.0 or a complex number and
    [Rpower] does not; nothing below uses [ludwik] there. *)
Definition ludwik (strain : R) : R :=
  ludvig_k0 * Rpower (strain + 0.01) ludvig_n.

Definition avrami_k : R := 0.2.
Definition avrami_n : nat := 2.

(** [1 - np.exp(-avrami_k * time**avrami_n)], with the real
    exponential: total, and never rounded to 0 or 1. *)
Definition avrami (time : R) : R :=
  1 - exp (- avrami_k * time ^ avrami_n).

Definition avrami_increment (time increment : R) : R :=
  avrami (time + increment) - avrami time.

(** ** The Portion container (cell 32) *)

Record Portion : Type := mkPortion {
  start_time : R;
  portion : R;
  start_portion : R;
  strain : R
}.

(** [Portion.__init__]: the start time [-1] means "not yet set". *)
Definition Portion_init (portion : R) : Portion :=
  mkPortion (-1) portion portion 0.

Definition flow_stress (p : Portion) : R := ludwik (strain p).

(** ** Result rows: the tuples [(t, strain, flow_stress)] *)

Record Row : Type := mkRow {
  row_t : R;
  row_strain : R;
  row_flow_stress : R
}.

(** [sum(p.portion * p.flow_stress() for p in portions)]: Python's
    [sum] starts from 0 and adds from the left. *)
Definition sum_flow_stress (portions : list Portion) : R :=
  fold_left (fun acc p => acc + portion p * flow_stress p) portions 0.

(** Local variables of [luton_sellars_solve] that the loop updates. *)
Record State : Type := mkState {
  st_strain : R;
  st_t : R;
  st_portions : list Portion;
  st_results : list Row
}.

(** The values the notebook assigns. *)
Module Notebook.
Definition strain_critical : R := 0.5.
Definition strain_step : R := 0.02.
Definition strain_max : R := 4.
Definition rates : list R := [0.1; 0.2; 0.5; 1.0].
End Notebook.

(** ** Quantities the properties speak about *)

(** Sum of a list of reals. *)
Fixpoint Rsum (l : list R) : R :=
  match l with
  | [] => 0
  | x :: rest => x + Rsum rest
  end.

(** Sum of the volume shares of a population. *)
Fixpoint total_portion (portions : list Portion) : R :=
  match portions with
  | [] => 0
  | p :: rest => portion p + total_portion rest
  end.

(** The ceiling of [strain_max / strain_step], as a number of
    iterations. *)
Definition iterations (strain_step strain_max : R) : nat :=
  Z.to_nat (Zceil (strain_max / strain_step)).

(** The test the solver uses for "start time not yet set". *)
Definition unset (p : Portion) : Prop := start_time p < 0.

(** ** The solver in binary64

    The definitions of cells 27 to 36 once more, on binary64 floats.
    [accumulate] and [guard_iterations] are the strain counter alone;
    the rest follows the source line by line, without the flow-stress
    entry of the result tuples. *)

Module Binary64.
Import PrimFloat.

Set Warnings "-inexact-float".

(** The notebook's values, as Python reads the literals. *)
Definition strain_critical : float := 0.5%float.
Definition strain_step : float := 0.02%float.
Definition strain_max : float := 4%float.

(** The literal [0.1], for an example with other values. *)
Definition tenth : float := 0.1%float.

(** [strain += strain_step], [n] times. *)
Fixpoint accumulate (n : nat) (strain_step strain : float) : float :=
  match n with
  | O => strain
  | S k => accumulate k strain_step (strain + strain_step)%float
  end.

(** Number of executions of the body of
    [while strain < strain_max: strain += strain_step]. *)
Fixpoint guard_iterations (fuel : nat) (strain_step strain_max strain : float)
  : option nat :=
  if ltb strain strain_max then
    match fuel with
    | O => None
    | S fuel' =>
        option_map S
          (guard_iterations fuel' strain_step strain_max
                            (strain + strain_step)%float)
    end
  else Some O.

(** A critical strain above [strain_max]: no portion recrystallises,
    so a run needs no value of [np.exp]. *)
Definition no_onset : float := 10%float.

(** A rate so small that [strain_step / rate] is infinite, and one for
    which the square of the time step is. *)
Definition subnormal_rate : float := 1e-320%float.
Definition tiny_rate : float := 1e-200%float.

(** A time whose square is beyond the binary64 range. *)
Definition huge_time : float := 1e200%float.

Definition fifteen : float := 15%float.

(** The tolerance of the volume balance. *)
Definition tolerance : float := 1e-9%float.

Definition avrami_k : float := 0.2%float.

Set Warnings "inexact-float".

(** What a call gives: a value, one of the two exceptions the code can
    raise, [Unknown] where a value of [np.exp] is needed that the
    model does not have, or [NoFuel]. *)
Inductive Result (A : Type) : Type :=
| Value (a : A)
| OverflowError
| DivisionByZero
| Unknown
| NoFuel.

Arguments Value {A} a.
Arguments OverflowError {A}.
Arguments DivisionByZero {A}.
Arguments Unknown {A}.
Arguments NoFuel {A}.

Definition bind {A B : Type} (r : Result A) (f : A -> Result B)
  : Result B :=
  match r with
  | Value a => f a
  | OverflowError => OverflowError
  | DivisionByZero => DivisionByZero
  | Unknown => Unknown
  | NoFuel => NoFuel
  end.

(** [time ** avrami_n] with [avrami_n = 2], a Python float to an int
    power: NaN and the infinities pass through, and a finite [time]
    whose square is infinite raises [OverflowError].  The value is
    taken to be the rounded product. *)
Definition time_pow (time : float) : Result float :=
  if is_nan time then Value time
  else if is_infinity time then Value infinity
  else
    let square := (time * time)%float in
    if is_infinity square then OverflowError else Value square.

(** [np.exp] where IEEE 754 fixes its value: NaN, the infinities and
    zero. *)
Definition np_exp (x : float) : Result float :=
  if is_nan x then Value nan
  else if is_infinity x then
    if ltb x zero then Value zero else Value infinity
  else if is_zero x then Value one
  else Unknown.

(** [1 - np.exp(-avrami_k * time**avrami_n)] *)
Definition avrami (time : float) : Result float :=
  bind (time_pow time) (fun square =>
  bind (np_exp (- avrami_k * square)%float) (fun e =>
  Value (one - e)%float)).

(** [avrami(time + increment) - avrami(time)], left operand first. *)
Definition avrami_increment (time increment : float) : Result float :=
  bind (avrami (time + increment)%float) (fun later =>
  bind (avrami time) (fun now =>
  Value (later - now)%float)).

Record Portion : Type := mkPortion {
  start_time : float;
  portion : float;
  start_portion : float;
  strain : float
}.

Definition Portion_init (portion : float) : Portion :=
  mkPortion (- one)%float portion portion zero.

(** The tuples [(t, strain, ...)] without their third entry, the flow
    stress: it needs [**] with the exponent 0.2, for which there is no
    binary64 model here, and it cannot raise. *)
Record Row : Type := mkRow {
  row_t : float;
  row_strain : float
}.

Record State : Type := mkState {
  st_strain : float;
  st_t : float;
  st_portions : list Portion;
  st_results : list Row
}.

Definition visit (strain_critical strain_step t time_step : float)
           (p : Portion) (new_portion : float) : Result (Portion * float) :=
  if leb strain_critical (strain p) then
    let start := if ltb (start_time p) zero then t else start_time p in
    bind (avrami_increment (t - start)%float time_step) (fun increment =>
    let recrystallized_amount := (increment * start_portion p)%float in
    Value (mkPortion start (portion p - recrystallized_amount)%float
                     (start_portion p) (strain p + strain_step)%float,
           (new_portion + recrystallized_amount)%float))
  else
    Value (mkPortion (start_time p) (portion p) (start_portion p)
                     (strain p + strain_step)%float,
           new_portion).

Fixpoint for_portions (strain_critical strain_step t time_step : float)
         (portions : list Portion) (new_portion : float)
  : Result (list Portion * float) :=
  match portions with
  | [] => Value ([], new_portion)
  | p :: rest =>
      bind (visit strain_critical strain_step t time_step p new_portion)
           (fun '(p', acc) =>
      bind (for_portions strain_critical strain_step t time_step rest acc)
           (fun '(rest', acc') =>
      Value (p' :: rest', acc')))
  end.

Definition loop_body (strain_critical strain_step time_step : float)
           (s : State) : Result State :=
  bind (for_portions strain_critical strain_step (st_t s) time_step
                     (st_portions s) zero)
       (fun '(visited, new_portion) =>
  let portions :=
    if ltb zero new_portion
    then visited ++ [Portion_init new_portion]
    else visited in
  let strain := (st_strain s + strain_step)%float in
  let t := (st_t s + time_step)%float in
  Value (mkState strain t portions (st_results s ++ [mkRow t strain]))).

Fixpoint while_loop (strain_critical strain_step strain_max : float)
         (fuel : nat) (time_step : float) (s : State) : Result State :=
  if ltb (st_strain s) strain_max then
    match fuel with
    | O => NoFuel
    | S fuel' =>
        bind (loop_body strain_critical strain_step time_step s)
             (while_loop strain_critical strain_step strain_max fuel'
                         time_step)
    end
  else Value s.

Definition initial_state : State :=
  mkState zero zero [Portion_init one] [].

Definition luton_sellars_solve
           (strain_critical strain_step strain_max : float)
           (fuel : nat) (rate : float) : Result (list Row) :=
  if is_zero rate then DivisionByZero
  else
    let time_step := (strain_step / rate)%float in
    bind (while_loop strain_critical strain_step strain_max fuel time_step
                     initial_state)
         (fun s => Value (st_results s)).

(** The state after [n] executions of the loop body at the given
    [rate]. *)
Fixpoint after (strain_critical strain_step : float) (n : nat)
         (rate : float) : Result State :=
  match n with
  | O => Value initial_state
  | S k =>
      bind (after strain_critical strain_step k rate)
           (loop_body strain_critical strain_step
                      (strain_step / rate)%float)
  end.

Fixpoint total_portion (portions : list Portion) : float :=
  match portions with
  | [] => zero
  | p :: rest => (portion p + total_portion rest)%float
  end.

End Binary64.

(** ** The solver (cell 36)

    [strain_critical], [strain_step] and [strain_max] are module-level
    names in the notebook, read by the solver at each call; here they
    are parameters of the section.  The notebook's values are in
    [Module Notebook] above. *)

Section Solver.

Variables strain_critical strain_step strain_max : R.

(** Body of [for p in portions], for one [p], threading the
    accumulator [new_portion]. *)
Definition visit (t time_step : R) (p : Portion) (new_portion : R)
  : Portion * R :=
  if Rle_dec strain_critical (strain p) then
    let start := if Rlt_dec (start_time p) 0 then t else start_time p in
    let recrystallized_amount :=
      avrami_increment (t - start) time_step * start_portion p in
    (mkPortion start (portion p - recrystallized_amount)
               (start_portion p) (strain p + strain_step),
     new_portion + recrystallized_amount)
  else
    (mkPortion (start_time p) (portion p)
               (start_portion p) (strain p + strain_step),
     new_portion).

Fixpoint for_portions (t time_step : R) (portions : list Portion)
         (new_portion : R) : list Portion * R :=
  match portions with
  | [] => ([], new_portion)
  | p :: rest =>
      let (p', acc) := visit t time_step p new_portion in
      let (rest', acc') := for_portions t time_step rest acc in
      (p' :: rest', acc')
  end.

(** One execution of the body of [while strain < strain_max]. *)
Definition loop_body (time_step : R) (s : State) : State :=
  let (visited, new_portion) :=
    for_portions (st_t s) time_step (st_portions s) 0 in
  let portions :=
    if Rlt_dec 0 new_portion
    then visited ++ [Portion_init new_portion]
    else visited in
  let strain := st_strain s + strain_step in
  let t := st_t s + time_step in
  mkState strain t portions
          (st_results s ++ [mkRow t strain (sum_flow_stress portions)]).

Fixpoint while_loop (fuel : nat) (time_step : R) (s : State)
  : option State :=
  if Rlt_dec (st_strain s) strain_max then
    match fuel with
    | O => None
    | S fuel' => while_loop fuel' time_step (loop_body time_step s)
    end
  else Some s.

(** State on entry to the loop. *)
Definition initial_state : State :=
  mkState 0 0 [Portion_init 1] [].

(** [luton_sellars_solve(rate)].  [strain_step / rate] raises
    [ZeroDivisionError] for [rate = 0]; nothing else is checked.  In
    exact arithmetic no other exception can occur; the [OverflowError]
    of [**] is in [Binary64.luton_sellars_solve]. *)
Definition luton_sellars_solve (fuel : nat) (rate : R)
  : Outcome (list Row) :=
  if Req_dec_T rate 0 then Raise ZeroDivisionError
  else
    let time_step := strain_step / rate in
    match while_loop fuel time_step initial_state with
    | Some s => Ok (st_results s)
    | None => OutOfFuel
    end.

(** The state after [n] executions of the loop body, whatever the
    loop guard says: the run of the solver is a prefix of this
    sequence. *)
Fixpoint after (n : nat) (time_step : R) : State :=
  match n with
  | O => initial_state
  | S k => loop_body time_step (after k time_step)
  end.

(** ** The loop over rates (cell 38)

    [pd.concat([luton_sellars_solve(rate) for rate in rates],
    keys=rates).reset_index(level=0, names="rate")].  The list
    comprehension evaluates the runs in order and an exception of one
    run leaves the comprehension; [pd.concat] of no frames raises
    [ValueError]. *)

Fixpoint comprehension (fuel : nat) (rates : list R)
  : Outcome (list (list Row)) :=
  match rates with
  | [] => Ok []
  | rate :: rest =>
      match luton_sellars_solve fuel rate with
      | Ok frame =>
          match comprehension fuel rest with
          | Ok frames => Ok (frame :: frames)
          | Raise e => Raise e
          | OutOfFuel => OutOfFuel
          end
      | Raise e => Raise e
      | OutOfFuel => OutOfFuel
      end
  end.

(** Rows of the combined table: the key of the frame, then the row. *)
Fixpoint concat_keys (keys : list R) (frames : list (list Row))
  : list (R * Row) :=
  match keys, frames with
  | key :: keys', frame :: frames' =>
      map (fun r => (key, r)) frame ++ concat_keys keys' frames'
  | _, _ => []
  end.

Definition results (fuel : nat) (rates : list R)
  : Outcome (list (R * Row)) :=
  match comprehension fuel rates with
  | Ok [] => Raise ValueError
  | Ok frames => Ok (concat_keys rates frames)
  | Raise e => Raise e
  | OutOfFuel => OutOfFuel
  end.

(** ** One pass of the inner loop, seen from one portion *)

(** What one pass of the inner loop moves out of [p]. *)
Definition recrystallized (t time_step : R) (p : Portion) : R :=
  snd (visit t time_step p 0).

(** [p] after one pass of the inner loop. *)
Definition visited (t time_step : R) (p : Portion) : Portion :=
  fst (visit t time_step p 0).

(** The volume the inner loop collects from the population of [s]. *)
Definition new_portion_of (time_step : R) (s : State) : R :=
  Rsum (map (recrystallized (st_t s) time_step) (st_portions s)).

(** Shape of a portion between two iterations, at elapsed time [t]:
    either it never recrystallised and still has its whole share, or
    it started at [start_time] and has lost the Avrami fraction of
    the time since then. *)
Definition portion_ok (t : R) (p : Portion) : Prop :=
  0 < start_portion p /\
  ((start_time p = -1 /\ portion p = start_portion p) \/
   (0 <= start_time p <= t /\
    strain_critical + strain_step <= strain p /\
    portion p = start_portion p * (1 - avrami (t - start_time p)))).

(** Index [i] was appended to the population by iteration [k]
    (iterations count from 1). *)
Definition appended_in (time_step : R) (k i : nat) : Prop :=
  (1 <= k)%nat /\
  i = length (st_portions (after (k - 1) time_step)) /\
  length (st_portions (after k time_step)) = S i.

(** * Properties *)

(** ** The two laws *)

Lemma avrami_k_pos : 0 < avrami_k.
Proof. unfold avrami_k; lra. Qed.

Lemma avrami_exponent_nonneg (time : R) : 0 <= avrami_k * time ^ avrami_n.
Proof.
  unfold avrami_n. pose proof avrami_k_pos. pose proof (pow2_ge_0 time).
  replace (time ^ 2) with (time²) by (unfold Rsqr; ring).
  apply Rmult_le_pos; [lra | apply Rle_0_sqr].
Qed.

Lemma avrami_0 : avrami 0 = 0.
Proof.
  unfold avrami, avrami_n.
  replace (- avrami_k * 0 ^ 2) with 0 by ring.
  rewrite exp_0; ring.
Qed.

Lemma avrami_lt_1 (time : R) : avrami time < 1.
Proof.
  unfold avrami. pose proof (exp_pos (- avrami_k * time ^ avrami_n)). lra.
Qed.

Lemma avrami_increasing (t1 t2 : R) :
  0 <= t1 -> t1 < t2 -> avrami t1 < avrami t2.
Proof.
  intros H1 H12. unfold avrami, avrami_n.
  assert (Hexp : exp (- avrami_k * t2 ^ 2) < exp (- avrami_k * t1 ^ 2)).
  { apply exp_increasing. pose proof avrami_k_pos as Hk.
    assert (Hsq : 0 < (t2 - t1) * (t2 + t1))
      by (apply Rmult_lt_0_compat; lra).
    assert (Hprod : 0 < avrami_k * ((t2 - t1) * (t2 + t1)))
      by (apply Rmult_lt_0_compat; lra).
    lra. }
  lra.
Qed.

Lemma avrami_nonneg (time : R) : 0 <= time -> 0 <= avrami time.
Proof.
  intros [Hpos | <-].
  - rewrite <- avrami_0. left. apply avrami_increasing; lra.
  - rewrite avrami_0; lra.
Qed.

Lemma avrami_tends_to_1 (eps : R) :
  0 < eps -> exists T, 0 <= T /\ forall time, T <= time -> 1 - eps < avrami time.
Proof.
  intros Heps. exists (1 + 5 / eps).
  assert (Hq : 0 < 5 / eps) by (apply Rdiv_lt_0_compat; lra).
  split; [lra |]. intros time Htime.
  unfold avrami.
  replace (- avrami_k * time ^ avrami_n)
    with (- (avrami_k * time ^ 2)) by (unfold avrami_n; ring).
  assert (Hbig : / eps < avrami_k * time ^ 2).
  { assert (H5 : 5 / eps = 5 * / eps) by reflexivity.
    assert (Hinv : 0 < / eps) by (apply Rinv_0_lt_compat; lra).
    unfold avrami_k. nra. }
  rewrite exp_Ropp.
  assert (Hexp : / eps < exp (avrami_k * time ^ 2)).
  { pose proof (exp_ineq1_le (avrami_k * time ^ 2)). lra. }
  assert (Hinv : / exp (avrami_k * time ^ 2) < / / eps).
  { apply Rinv_lt_contravar; [| exact Hexp].
    apply Rmult_lt_0_compat; [apply Rinv_0_lt_compat; lra | apply exp_pos]. }
  rewrite Rinv_inv in Hinv. lra.
Qed.

Lemma avrami_increment_pos (time increment : R) :
  0 <= time -> 0 < increment -> 0 < avrami_increment time increment.
Proof.
  intros Ht Hd. unfold avrami_increment.
  assert (avrami time < avrami (time + increment))
    by (apply avrami_increasing; lra).
  lra.
Qed.

Lemma ludwik_pos (strain : R) : 0 < ludwik strain.
Proof.
  unfold ludwik, ludvig_k0, Rpower.
  apply Rmult_lt_0_compat; [lra | apply exp_pos].
Qed.

Lemma ludwik_increasing (s1 s2 : R) :
  0 <= s1 -> s1 < s2 -> ludwik s1 < ludwik s2.
Proof.
  intros H1 H12. unfold ludwik, ludvig_k0, ludvig_n.
  apply Rmult_lt_compat_l; [lra |].
  apply Rlt_Rpower_l; lra.
Qed.

(** ** The inner loop *)




Lemma visit_split (t dt : R) (p : Portion) (acc : R) :
  visit t dt p acc = (visited t dt p, acc + recrystallized t dt p).
Proof.
  unfold visited, recrystallized, visit.
  destruct (Rle_dec strain_critical (strain p)); cbn [fst snd];
    apply f_equal; ring.
Qed.

Lemma for_portions_spec (t dt : R) (ps : list Portion) (acc : R) :
  for_portions t dt ps acc =
  (map (visited t dt) ps, acc + Rsum (map (recrystallized t dt) ps)).
Proof.
  revert acc. induction ps as [| p ps IH]; intros acc;
    cbn [for_portions map Rsum].
  - apply f_equal. ring.
  - rewrite visit_split, IH. apply f_equal. ring.
Qed.

Lemma visited_strain (t dt : R) (p : Portion) :
  strain (visited t dt p) = strain p + strain_step.
Proof.
  unfold visited, visit.
  destruct (Rle_dec strain_critical (strain p)); reflexivity.
Qed.

Lemma visited_start_portion (t dt : R) (p : Portion) :
  start_portion (visited t dt p) = start_portion p.
Proof.
  unfold visited, visit.
  destruct (Rle_dec strain_critical (strain p)); reflexivity.
Qed.

Lemma visited_portion (t dt : R) (p : Portion) :
  portion (visited t dt p) = portion p - recrystallized t dt p.
Proof.
  unfold visited, recrystallized, visit.
  destruct (Rle_dec strain_critical (strain p)); cbn [fst snd portion]; ring.
Qed.

(** Below the critical strain the pass changes the strain only. *)
Lemma visited_below (t dt : R) (p : Portion) :
  strain p < strain_critical ->
  start_time (visited t dt p) = start_time p /\
  portion (visited t dt p) = portion p /\
  recrystallized t dt p = 0.
Proof.
  intros Hlt.
  unfold visited, recrystallized, visit.
  destruct (Rle_dec strain_critical (strain p)); [lra |].
  cbn; auto.
Qed.

(** At or above it, an unset start time becomes the current time. *)
Lemma visited_onset (t dt : R) (p : Portion) :
  strain_critical <= strain p -> unset p ->
  start_time (visited t dt p) = t /\
  recrystallized t dt p = avrami_increment (t - t) dt * start_portion p.
Proof.
  unfold unset. intros Hge Hun.
  unfold visited, recrystallized, visit.
  destruct (Rle_dec strain_critical (strain p)); [| lra].
  destruct (Rlt_dec (start_time p) 0); [| lra].
  cbn. split; [reflexivity | ring].
Qed.

(** A start time that is set is kept. *)
Lemma visited_keeps_start (t dt : R) (p : Portion) :
  ~ unset p -> start_time (visited t dt p) = start_time p.
Proof.
  unfold unset. intros Hset.
  unfold visited, visit.
  destruct (Rle_dec strain_critical (strain p)); [| reflexivity].
  destruct (Rlt_dec (start_time p) 0); [lra | reflexivity].
Qed.

Lemma visited_recrystallizing (t dt : R) (p : Portion) :
  strain_critical <= strain p -> ~ unset p ->
  recrystallized t dt p =
  avrami_increment (t - start_time p) dt * start_portion p.
Proof.
  unfold unset. intros Hge Hset.
  unfold recrystallized, visit.
  destruct (Rle_dec strain_critical (strain p)); [| lra].
  destruct (Rlt_dec (start_time p) 0); [lra |].
  cbn. ring.
Qed.

Lemma total_portion_app (ps qs : list Portion) :
  total_portion (ps ++ qs) = total_portion ps + total_portion qs.
Proof.
  induction ps as [| p ps IH]; cbn; [ring | rewrite IH; ring].
Qed.

Lemma total_portion_visited (t dt : R) (ps : list Portion) :
  total_portion (map (visited t dt) ps) =
  total_portion ps - Rsum (map (recrystallized t dt) ps).
Proof.
  induction ps as [| p ps IH]; cbn; [ring |].
  rewrite IH, visited_portion. ring.
Qed.

Section Positive.

Hypothesis strain_step_pos : 0 < strain_step.

Lemma portion_ok_visited (t dt : R) (p : Portion) :
  0 <= t -> 0 < dt ->
  portion_ok t p -> portion_ok (t + dt) (visited t dt p).
Proof.
  intros Ht Hdt (Hsp & Hshape).
  split; [rewrite visited_start_portion; exact Hsp |].
  rewrite visited_strain, visited_start_portion, visited_portion.
  destruct (Rle_dec strain_critical (strain p)) as [Hge | Hlt].
  - right. destruct Hshape as [[Hst Hp] | (Hst & Hs & Hp)].
    + assert (Hun : unset p) by (unfold unset; lra).
      destruct (visited_onset t dt p Hge Hun) as [-> ->].
      split; [lra |]. split; [lra |].
      unfold avrami_increment. rewrite Hp.
      replace (t - t) with 0 by ring. rewrite avrami_0.
      replace (t + dt - t) with (0 + dt) by ring. ring.
    + assert (Hset : ~ unset p) by (unfold unset; lra).
      rewrite (visited_keeps_start t dt p Hset).
      rewrite (visited_recrystallizing t dt p Hge Hset).
      split; [lra |]. split; [lra |].
      unfold avrami_increment. rewrite Hp.
      replace (t + dt - start_time p) with (t - start_time p + dt) by ring.
      ring.
  - assert (Hlt' : strain p < strain_critical) by lra.
    destruct (visited_below t dt p Hlt') as (-> & _ & ->).
    left. destruct Hshape as [[Hst Hp] | (Hst & Hs & Hp)]; [| lra].
    split; [exact Hst | lra].
Qed.

Lemma portion_ok_positive (t : R) (p : Portion) :
  portion_ok t p -> 0 < portion p.
Proof.
  intros (Hsp & [[_ ->] | (_ & _ & ->)]); [exact Hsp |].
  apply Rmult_lt_0_compat; [exact Hsp |].
  pose proof (avrami_lt_1 (t - start_time p)). lra.
Qed.

Lemma recrystallized_nonneg (t dt : R) (p : Portion) :
  0 <= t -> 0 < dt -> portion_ok t p -> 0 <= recrystallized t dt p.
Proof.
  intros Ht Hdt (Hsp & Hshape).
  destruct (Rle_dec strain_critical (strain p)) as [Hge | Hlt].
  - left. destruct Hshape as [[Hst Hp] | (Hst & Hs & Hp)].
    + assert (Hun : unset p) by (unfold unset; lra).
      destruct (visited_onset t dt p Hge Hun) as [_ ->].
      apply Rmult_lt_0_compat; [| exact Hsp].
      apply avrami_increment_pos; lra.
    + assert (Hset : ~ unset p) by (unfold unset; lra).
      rewrite (visited_recrystallizing t dt p Hge Hset).
      apply Rmult_lt_0_compat; [| exact Hsp].
      apply avrami_increment_pos; lra.
  - assert (Hlt' : strain p < strain_critical) by lra.
    destruct (visited_below t dt p Hlt') as (_ & _ & ->). lra.
Qed.

Lemma recrystallized_pos (t dt : R) (p : Portion) :
  0 <= t -> 0 < dt -> portion_ok t p ->
  strain_critical <= strain p -> 0 < recrystallized t dt p.
Proof.
  intros Ht Hdt (Hsp & Hshape) Hge.
  destruct Hshape as [[Hst Hp] | (Hst & Hs & Hp)].
  - assert (Hun : unset p) by (unfold unset; lra).
    destruct (visited_onset t dt p Hge Hun) as [_ ->].
    apply Rmult_lt_0_compat; [| exact Hsp].
    apply avrami_increment_pos; lra.
  - assert (Hset : ~ unset p) by (unfold unset; lra).
    rewrite (visited_recrystallizing t dt p Hge Hset).
    apply Rmult_lt_0_compat; [| exact Hsp].
    apply avrami_increment_pos; lra.
Qed.

Lemma Rsum_recrystallized_nonneg (t dt : R) (ps : list Portion) :
  0 <= t -> 0 < dt -> Forall (portion_ok t) ps ->
  0 <= Rsum (map (recrystallized t dt) ps).
Proof.
  intros Ht Hdt Hall. induction Hall as [| p ps Hp _ IH]; cbn; [lra |].
  pose proof (recrystallized_nonneg t dt p Ht Hdt Hp). lra.
Qed.

Lemma Rsum_recrystallized_pos (t dt : R) (ps : list Portion) (p : Portion) :
  0 <= t -> 0 < dt -> Forall (portion_ok t) ps ->
  In p ps -> strain_critical <= strain p ->
  0 < Rsum (map (recrystallized t dt) ps).
Proof.
  intros Ht Hdt Hall. induction Hall as [| q ps Hq Hall IH]; cbn;
    intros Hin Hge; [contradiction |].
  pose proof (recrystallized_nonneg t dt q Ht Hdt Hq).
  pose proof (Rsum_recrystallized_nonneg t dt ps Ht Hdt Hall).
  destruct Hin as [-> | Hin].
  - pose proof (recrystallized_pos t dt p Ht Hdt Hq Hge). lra.
  - specialize (IH Hin Hge). lra.
Qed.

End Positive.


(** ** The outer loop *)

Section Run.

Variable time_step : R.

Lemma loop_body_strain (s : State) :
  st_strain (loop_body time_step s) = st_strain s + strain_step.
Proof.
  unfold loop_body.
  destruct (for_portions (st_t s) time_step (st_portions s) 0); reflexivity.
Qed.

Lemma loop_body_t (s : State) :
  st_t (loop_body time_step s) = st_t s + time_step.
Proof.
  unfold loop_body.
  destruct (for_portions (st_t s) time_step (st_portions s) 0); reflexivity.
Qed.

Lemma loop_body_portions (s : State) :
  st_portions (loop_body time_step s) =
  map (visited (st_t s) time_step) (st_portions s) ++
  (if Rlt_dec 0 (new_portion_of time_step s)
   then [Portion_init (new_portion_of time_step s)] else []).
Proof.
  unfold loop_body, new_portion_of.
  rewrite for_portions_spec, Rplus_0_l.
  destruct (Rlt_dec 0 _); cbn [st_portions];
    [reflexivity | now rewrite app_nil_r].
Qed.

Lemma loop_body_results (s : State) :
  st_results (loop_body time_step s) =
  st_results s ++
  [mkRow (st_t (loop_body time_step s)) (st_strain (loop_body time_step s))
         (sum_flow_stress (st_portions (loop_body time_step s)))].
Proof.
  unfold loop_body.
  destruct (for_portions (st_t s) time_step (st_portions s) 0); reflexivity.
Qed.

Lemma after_strain (n : nat) :
  st_strain (after n time_step) = INR n * strain_step.
Proof.
  induction n as [| n IH].
  - cbn. ring.
  - cbn [after]. rewrite loop_body_strain, IH, S_INR. ring.
Qed.

Lemma after_t (n : nat) :
  st_t (after n time_step) = INR n * time_step.
Proof.
  induction n as [| n IH].
  - cbn. ring.
  - cbn [after]. rewrite loop_body_t, IH, S_INR. ring.
Qed.

Lemma after_results_length (n : nat) :
  length (st_results (after n time_step)) = n.
Proof.
  induction n as [| n IH]; [reflexivity |].
  cbn [after]. rewrite loop_body_results, length_app, IH. cbn. lia.
Qed.

(** Row [k] is written by iteration [k + 1] and never touched again. *)
Lemma after_results_nth (n k : nat) :
  (k < n)%nat ->
  nth_error (st_results (after n time_step)) k =
  Some (mkRow (st_t (after (S k) time_step))
              (st_strain (after (S k) time_step))
              (sum_flow_stress (st_portions (after (S k) time_step)))).
Proof.
  induction n as [| n IH]; intros Hk; [lia |].
  cbn [after]. rewrite loop_body_results.
  destruct (Nat.eq_dec k n) as [-> | Hne].
  - rewrite nth_error_app2 by (rewrite after_results_length; lia).
    rewrite after_results_length, Nat.sub_diag. reflexivity.
  - rewrite nth_error_app1 by (rewrite after_results_length; lia).
    apply IH. lia.
Qed.

Lemma after_portions_length (n : nat) :
  (length (st_portions (after n time_step))
   <= length (st_portions (after (S n) time_step))
   <= S (length (st_portions (after n time_step))))%nat.
Proof.
  cbn [after]. rewrite loop_body_portions, length_app, length_map.
  destruct (Rlt_dec 0 _); cbn; lia.
Qed.

Lemma after_portions_length_le (n m : nat) :
  (n <= m)%nat ->
  (length (st_portions (after n time_step))
   <= length (st_portions (after m time_step)))%nat.
Proof.
  induction 1 as [| m _ IH]; [lia |].
  pose proof (after_portions_length m). lia.
Qed.

(** The population is append-only: index [i] stays index [i]. *)
Lemma after_nth_step (n i : nat) (p : Portion) :
  nth_error (st_portions (after n time_step)) i = Some p ->
  nth_error (st_portions (after (S n) time_step)) i =
  Some (visited (st_t (after n time_step)) time_step p).
Proof.
  intros Hnth. cbn [after]. rewrite loop_body_portions.
  assert (Hi : (i < length (st_portions (after n time_step)))%nat).
  { apply nth_error_Some. congruence. }
  rewrite nth_error_app1 by (rewrite length_map; exact Hi).
  rewrite nth_error_map, Hnth. reflexivity.
Qed.

(** The loop runs the body while the guard holds: from the state after
    [n] iterations it needs exactly [d] more when the guard holds for
    the next [d] states and fails after them. *)
Lemma while_loop_after (d n fuel : nat) :
  (forall j, (n <= j < n + d)%nat ->
             st_strain (after j time_step) < strain_max) ->
  ~ st_strain (after (n + d) time_step) < strain_max ->
  ((d <= fuel)%nat ->
   while_loop fuel time_step (after n time_step)
   = Some (after (n + d) time_step)) /\
  ((fuel < d)%nat ->
   while_loop fuel time_step (after n time_step) = None).
Proof.
  revert n fuel. induction d as [| d IH]; intros n fuel Hguard Hstop.
  - rewrite Nat.add_0_r in Hstop. split; [intros _ | lia].
    rewrite Nat.add_0_r.
    destruct fuel; cbn [while_loop];
      destruct (Rlt_dec (st_strain (after n time_step)) strain_max);
      tauto.
  - assert (Hn : st_strain (after n time_step) < strain_max)
      by (apply Hguard; lia).
    destruct (IH (S n) (pred fuel)) as [Hsome Hnone].
    + intros j Hj. apply Hguard. lia.
    + replace (S n + d)%nat with (n + S d)%nat by lia. exact Hstop.
    + replace (S n + d)%nat with (n + S d)%nat in Hsome by lia.
      split; intros Hfuel.
      * destruct fuel as [| fuel]; [lia |]. cbn [while_loop].
        destruct (Rlt_dec (st_strain (after n time_step)) strain_max);
          [| tauto].
        apply Hsome. cbn. lia.
      * destruct fuel as [| fuel]; cbn [while_loop];
          destruct (Rlt_dec (st_strain (after n time_step)) strain_max);
          try tauto.
        apply Hnone. cbn. lia.
Qed.

End Run.

(** ** Invariants of a run with positive steps *)

Section PositiveRun.

Variable time_step : R.
Hypothesis strain_step_pos : 0 < strain_step.
Hypothesis time_step_pos : 0 < time_step.

Lemma after_t_nonneg (n : nat) : 0 <= st_t (after n time_step).
Proof.
  rewrite after_t. apply Rmult_le_pos; [apply pos_INR | lra].
Qed.

Lemma portion_ok_init (t x : R) : 0 < x -> portion_ok t (Portion_init x).
Proof.
  intros Hx. split; [exact Hx |]. left. split; reflexivity.
Qed.

Lemma after_ok (n : nat) :
  Forall (portion_ok (st_t (after n time_step)))
         (st_portions (after n time_step)).
Proof.
  induction n as [| n IH].
  - cbn. constructor; [apply portion_ok_init; lra | constructor].
  - cbn [after]. rewrite loop_body_portions, loop_body_t.
    apply Forall_app. split.
    + apply Forall_map. revert IH. apply Forall_impl. intros p Hp.
      apply portion_ok_visited; [exact strain_step_pos | | exact time_step_pos | exact Hp].
      apply after_t_nonneg.
    + destruct (Rlt_dec 0 _) as [Hpos | _]; [| constructor].
      constructor; [apply portion_ok_init; exact Hpos | constructor].
Qed.

Lemma new_portion_nonneg (n : nat) :
  0 <= new_portion_of time_step (after n time_step).
Proof.
  unfold new_portion_of. apply Rsum_recrystallized_nonneg.
  - apply after_t_nonneg.
  - exact time_step_pos.
  - apply after_ok.
Qed.

Lemma after_total (n : nat) :
  total_portion (st_portions (after n time_step)) = 1.
Proof.
  induction n as [| n IH].
  - cbn. ring.
  - cbn [after]. rewrite loop_body_portions, total_portion_app.
    rewrite total_portion_visited, IH.
    fold (new_portion_of time_step (after n time_step)).
    pose proof (new_portion_nonneg n) as Hnn.
    destruct (Rlt_dec 0 _) as [Hpos | Hnpos]; cbn; lra.
Qed.

(** In a run a start time is unset exactly when it is the initial -1,
    and a set one lies between 0 and the elapsed time. *)
Lemma after_start_time (n i : nat) (p : Portion) :
  nth_error (st_portions (after n time_step)) i = Some p ->
  (unset p /\ start_time p = -1 /\ portion p = start_portion p) \/
  (~ unset p /\ 0 <= start_time p <= st_t (after n time_step) /\
   strain_critical + strain_step <= strain p).
Proof.
  intros Hnth. pose proof (after_ok n) as Hall.
  rewrite Forall_forall in Hall.
  destruct (Hall p (nth_error_In _ _ Hnth))
    as (_ & [[Hst Hp] | (Hst & Hs & _)]); unfold unset.
  - left. repeat split; [lra | exact Hst | exact Hp].
  - right. repeat split; lra.
Qed.

Lemma after_nth_later (n d i : nat) (p : Portion) :
  nth_error (st_portions (after n time_step)) i = Some p ->
  exists p',
    nth_error (st_portions (after (n + d) time_step)) i = Some p' /\
    strain p' = strain p + INR d * strain_step /\
    start_portion p' = start_portion p /\
    (~ unset p -> start_time p' = start_time p).
Proof.
  intros Hnth. induction d as [| d (p' & Hnth' & Hs & Hsp & Hst)].
  - exists p. rewrite Nat.add_0_r. cbn [INR].
    split; [exact Hnth |]. split; [ring |]. split; [reflexivity | auto].
  - exists (visited (st_t (after (n + d) time_step)) time_step p').
    replace (n + S d)%nat with (S (n + d)) by lia.
    split; [apply after_nth_step; exact Hnth' |].
    rewrite visited_strain, visited_start_portion, Hs, Hsp, S_INR.
    split; [ring |]. split; [reflexivity |].
    intros Hset. specialize (Hst Hset).
    rewrite visited_keeps_start; [exact Hst |].
    unfold unset in *. lra.
Qed.

End PositiveRun.

End Solver.

(** ** The solver as a whole *)

Lemma iterations_guard (strain_step strain_max : R) :
  0 < strain_step -> 0 < strain_max ->
  (1 <= iterations strain_step strain_max)%nat /\
  (forall j, (j < iterations strain_step strain_max)%nat ->
             INR j * strain_step < strain_max) /\
  strain_max <= INR (iterations strain_step strain_max) * strain_step.
Proof.
  intros Hstep Hmax. unfold iterations.
  set (q := strain_max / strain_step).
  assert (Hq : 0 < q) by (apply Rdiv_lt_0_compat; assumption).
  assert (Hqs : q * strain_step = strain_max) by (unfold q; field; lra).
  destruct (Zceil_bound q) as [Hlo Hhi].
  assert (Hc : (1 <= Zceil q)%Z).
  { assert (0 < Zceil q)%Z by (apply lt_IZR; lra). lia. }
  assert (HN : INR (Z.to_nat (Zceil q)) = IZR (Zceil q))
    by (rewrite INR_IZR_INZ, Z2Nat.id by lia; reflexivity).
  split; [lia |]. split.
  - intros j Hj.
    assert (Hjle : INR j <= IZR (Zceil q) - 1).
    { rewrite INR_IZR_INZ, <- minus_IZR. apply IZR_le. lia. }
    nra.
  - rewrite HN. nra.
Qed.

Lemma luton_sellars_solve_run
      (strain_critical strain_step strain_max rate : R) (fuel : nat) :
  0 < strain_step -> 0 < strain_max -> rate <> 0 ->
  ((iterations strain_step strain_max <= fuel)%nat ->
   luton_sellars_solve strain_critical strain_step strain_max fuel rate
   = Ok (st_results
           (after strain_critical strain_step
                  (iterations strain_step strain_max)
                  (strain_step / rate)))) /\
  ((fuel < iterations strain_step strain_max)%nat ->
   luton_sellars_solve strain_critical strain_step strain_max fuel rate
   = OutOfFuel).
Proof.
  intros Hstep Hmax Hrate.
  destruct (iterations_guard strain_step strain_max Hstep Hmax)
    as (_ & Hguard & Hstop).
  destruct (while_loop_after strain_critical strain_step strain_max
              (strain_step / rate)
              (iterations strain_step strain_max) 0 fuel)
    as [Hsome Hnone].
  - intros j Hj. rewrite after_strain. apply Hguard. lia.
  - rewrite after_strain. cbn [Nat.add]. lra.
  - unfold luton_sellars_solve.
    destruct (Req_dec_T rate 0) as [Heq | _]; [contradiction |].
    cbn [after Nat.add] in Hsome, Hnone.
    split; intros Hfuel.
    + rewrite (Hsome Hfuel). reflexivity.
    + rewrite (Hnone Hfuel). reflexivity.
Qed.

(** The rows of a completed run, by position. *)
Lemma solve_rows
      (strain_critical strain_step strain_max rate : R) (fuel : nat) :
  0 < strain_step -> 0 < strain_max -> rate <> 0 ->
  (iterations strain_step strain_max <= fuel)%nat ->
  exists rows,
    luton_sellars_solve strain_critical strain_step strain_max fuel rate
    = Ok rows /\
    length rows = iterations strain_step strain_max /\
    forall k, (k < iterations strain_step strain_max)%nat ->
      nth_error rows k =
      Some (mkRow (INR (S k) * (strain_step / rate))
                  (INR (S k) * strain_step)
                  (sum_flow_stress
                     (st_portions
                        (after strain_critical strain_step (S k)
                               (strain_step / rate))))).
Proof.
  intros Hstep Hmax Hrate Hfuel.
  destruct (luton_sellars_solve_run strain_critical strain_step strain_max
              rate fuel Hstep Hmax Hrate) as [Hrun _].
  eexists. split; [apply Hrun; exact Hfuel |].
  split; [apply after_results_length |].
  intros k Hk. rewrite after_results_nth by exact Hk.
  rewrite after_t, after_strain. reflexivity.
Qed.

(** ** Claims *)

(** C1, in exact arithmetic.  With positive [strain_step],
    [strain_max] and [rate], after every number of iterations of the
    solver's loop the volume shares of all portions sum to exactly 1. *)
Theorem volume_conservation
        (strain_critical strain_step strain_max rate : R) (n : nat) :
  0 < strain_step -> 0 < strain_max -> 0 < rate ->
  total_portion
    (st_portions (after strain_critical strain_step n (strain_step / rate)))
  = 1.
Proof.
  intros Hstep _ Hrate.
  assert (Hdt : 0 < strain_step / rate)
    by (apply Rdiv_lt_0_compat; assumption).
  apply after_total; assumption.
Qed.

Lemma volume_conservation_witness :
  total_portion
    (st_portions
       (after Notebook.strain_critical Notebook.strain_step 30
              (Notebook.strain_step / 0.5)))
  = 1.
Proof.
  apply (volume_conservation Notebook.strain_critical Notebook.strain_step
           Notebook.strain_max 0.5 30);
    unfold Notebook.strain_step, Notebook.strain_max; lra.
Defined.

(** C2, in exact arithmetic.  Termination and output length: with
    positive [strain_step], [strain_max] and [rate] the loop guard
    holds before each of the
    first N = ceil(strain_max / strain_step) iterations and fails after
    the N-th; the solver returns with any fuel of at least N, runs out
    with less, and the returned table has exactly N rows. *)
Theorem termination_and_output_length
        (strain_critical strain_step strain_max rate : R) :
  0 < strain_step -> 0 < strain_max -> 0 < rate ->
  let N := iterations strain_step strain_max in
  let run n := after strain_critical strain_step n (strain_step / rate) in
  IZR (Z.of_nat N) - 1 < strain_max / strain_step <= IZR (Z.of_nat N) /\
  (forall j, (j < N)%nat -> st_strain (run j) < strain_max) /\
  ~ st_strain (run N) < strain_max /\
  (forall fuel, (N <= fuel)%nat ->
     luton_sellars_solve strain_critical strain_step strain_max fuel rate
     = Ok (st_results (run N))) /\
  (forall fuel, (fuel < N)%nat ->
     luton_sellars_solve strain_critical strain_step strain_max fuel rate
     = OutOfFuel) /\
  length (st_results (run N)) = N.
Proof.
  intros Hstep Hmax Hrate N run.
  destruct (iterations_guard strain_step strain_max Hstep Hmax)
    as (HN & Hguard & Hstop).
  fold N in HN, Hguard, Hstop.
  split.
  { unfold N, iterations. rewrite Z2Nat.id.
    - apply Zceil_bound.
    - unfold N, iterations in HN. lia. }
  split; [intros j Hj; unfold run; rewrite after_strain; auto |].
  split; [unfold run; rewrite after_strain; lra |].
  split; [| split].
  - intros fuel Hfuel.
    apply (luton_sellars_solve_run strain_critical strain_step strain_max
             rate fuel); [assumption | assumption | lra | exact Hfuel].
  - intros fuel Hfuel.
    apply (luton_sellars_solve_run strain_critical strain_step strain_max
             rate fuel); [assumption | assumption | lra | exact Hfuel].
  - apply after_results_length.
Qed.

Lemma termination_and_output_length_witness :
  let N := iterations Notebook.strain_step Notebook.strain_max in
  N = 200%nat /\
  (forall fuel, (N <= fuel)%nat ->
     luton_sellars_solve Notebook.strain_critical Notebook.strain_step
                         Notebook.strain_max fuel 0.5
     = Ok (st_results
             (after Notebook.strain_critical Notebook.strain_step N
                    (Notebook.strain_step / 0.5)))) /\
  length (st_results
            (after Notebook.strain_critical Notebook.strain_step N
                   (Notebook.strain_step / 0.5))) = N.
Proof.
  intros N.
  assert (H1 : 0 < Notebook.strain_step)
    by (unfold Notebook.strain_step; lra).
  assert (H2 : 0 < Notebook.strain_max)
    by (unfold Notebook.strain_max; lra).
  assert (H3 : 0 < 0.5) by lra.
  pose proof (termination_and_output_length Notebook.strain_critical
                Notebook.strain_step Notebook.strain_max 0.5 H1 H2 H3) as H.
  cbv zeta in H. fold N in H.
  destruct H as (_ & _ & _ & Hrun & _ & Hlen).
  split; [| split; assumption].
  unfold N, iterations, Notebook.strain_step, Notebook.strain_max.
  rewrite (Zceil_eq 200) by lra. reflexivity.
Defined.

(** C10. Every row couples time and strain through the rate, in exact
    arithmetic: with positive [strain_step], [strain_max] and [rate]
    the solver returns a table of ceil(strain_max / strain_step) rows,
    at least one, and row [k] of it has
    [t = (k+1) * strain_step / rate] and
    [strain = (k+1) * strain_step], hence [t * rate = strain]. *)
Theorem rows_couple_time_and_strain
        (strain_critical strain_step strain_max rate : R) (fuel : nat) :
  0 < strain_step -> 0 < strain_max -> 0 < rate ->
  (iterations strain_step strain_max <= fuel)%nat ->
  exists rows,
    luton_sellars_solve strain_critical strain_step strain_max fuel rate
    = Ok rows /\
    length rows = iterations strain_step strain_max /\
    (1 <= length rows)%nat /\
    forall k, (k < length rows)%nat ->
      exists row,
        nth_error rows k = Some row /\
        row_t row = INR (k + 1) * strain_step / rate /\
        row_strain row = INR (k + 1) * strain_step /\
        row_t row * rate = row_strain row.
Proof.
  intros Hstep Hmax Hrate Hfuel.
  destruct (solve_rows strain_critical strain_step strain_max rate fuel)
    as (rows & Hrun & Hlen & Hnth); [assumption | assumption | lra | assumption |].
  destruct (iterations_guard strain_step strain_max Hstep Hmax)
    as (HN & _ & _).
  exists rows. split; [exact Hrun |]. split; [exact Hlen |].
  split; [rewrite Hlen; exact HN |].
  intros k Hk. rewrite Hlen in Hk.
  eexists. split; [apply Hnth; exact Hk |].
  cbn [row_t row_strain]. replace (k + 1)%nat with (S k) by lia.
  repeat split; field; lra.
Qed.

(** C8, in exact arithmetic.  Rate ordering: for rates [0 < r1 < r2]
    and the same other parameters both runs return tables of
    ceil(strain_max / strain_step) rows, at least one; the rows at the
    same position have the same strain and the [r1] row has the
    strictly later time; and whenever any row of the [r1] run and any
    row of the [r2] run have the same strain, the [r1] row has the
    strictly later time. *)
Theorem rate_ordering
        (strain_critical strain_step strain_max r1 r2 : R) (fuel : nat) :
  0 < strain_step -> 0 < strain_max -> 0 < r1 -> r1 < r2 ->
  (iterations strain_step strain_max <= fuel)%nat ->
  exists rows1 rows2,
    luton_sellars_solve strain_critical strain_step strain_max fuel r1
    = Ok rows1 /\
    luton_sellars_solve strain_critical strain_step strain_max fuel r2
    = Ok rows2 /\
    length rows1 = iterations strain_step strain_max /\
    length rows2 = iterations strain_step strain_max /\
    (1 <= iterations strain_step strain_max)%nat /\
    (forall k, (k < iterations strain_step strain_max)%nat ->
       exists row1 row2,
         nth_error rows1 k = Some row1 /\
         nth_error rows2 k = Some row2 /\
         row_strain row1 = row_strain row2 /\
         row_t row2 < row_t row1) /\
    (forall row1 row2,
       In row1 rows1 -> In row2 rows2 ->
       row_strain row1 = row_strain row2 ->
       row_t row2 < row_t row1).
Proof.
  intros Hstep Hmax Hr1 Hr12 Hfuel.
  destruct (solve_rows strain_critical strain_step strain_max r1 fuel)
    as (rows1 & Hrun1 & Hlen1 & Hnth1);
    [assumption | assumption | lra | assumption |].
  destruct (solve_rows strain_critical strain_step strain_max r2 fuel)
    as (rows2 & Hrun2 & Hlen2 & Hnth2);
    [assumption | assumption | lra | assumption |].
  destruct (iterations_guard strain_step strain_max Hstep Hmax)
    as (HN & _ & _).
  assert (Hlater : forall a, 0 < a ->
            a * (strain_step / r2) < a * (strain_step / r1)).
  { intros a Ha. apply Rmult_lt_compat_l; [exact Ha |].
    unfold Rdiv. apply Rmult_lt_compat_l; [exact Hstep |].
    apply Rinv_lt_contravar; [apply Rmult_lt_0_compat; lra | exact Hr12]. }
  exists rows1, rows2.
  split; [exact Hrun1 |]. split; [exact Hrun2 |].
  split; [exact Hlen1 |]. split; [exact Hlen2 |]. split; [exact HN |].
  split.
  - intros k Hk.
    pose proof (Hnth1 k Hk) as E1. pose proof (Hnth2 k Hk) as E2.
    assert (Hpos : 0 < INR (S k)) by (apply lt_0_INR; lia).
    set (a := INR (S k)) in *.
    eexists. eexists. split; [exact E1 |]. split; [exact E2 |].
    cbn [row_t row_strain]. split; [reflexivity | apply Hlater; exact Hpos].
  - intros row1 row2 Hin1 Hin2 Hsame.
    apply In_nth_error in Hin1 as [k1 Hk1].
    apply In_nth_error in Hin2 as [k2 Hk2].
    assert (Hlt1 : (k1 < iterations strain_step strain_max)%nat).
    { rewrite <- Hlen1. apply nth_error_Some. congruence. }
    assert (Hlt2 : (k2 < iterations strain_step strain_max)%nat).
    { rewrite <- Hlen2. apply nth_error_Some. congruence. }
    pose proof (Hnth1 k1 Hlt1) as E1. pose proof (Hnth2 k2 Hlt2) as E2.
    assert (Hpos : 0 < INR (S k2)) by (apply lt_0_INR; lia).
    set (a1 := INR (S k1)) in *. set (a2 := INR (S k2)) in *.
    rewrite E1 in Hk1. injection Hk1 as <-.
    rewrite E2 in Hk2. injection Hk2 as <-.
    cbn [row_t row_strain] in *.
    assert (Hk : a1 = a2).
    { apply (Rmult_eq_reg_r strain_step); [exact Hsame | lra]. }
    rewrite Hk. apply Hlater. exact Hpos.
Qed.

(** C7, in exact arithmetic.  The Avrami law with the notebook's
    constants [k = 0.2] and [n = 2]: [avrami time = 1 - exp (- k * time ^ n)]; it is 0 at 0,
    lies in [0, 1) and is strictly increasing on times >= 0, and comes
    arbitrarily close to 1; [avrami_increment] is the difference of two
    values of it. *)
Theorem avrami_law :
  avrami_k = 0.2 /\ avrami_n = 2%nat /\
  (forall time, avrami time = 1 - exp (- (avrami_k * time ^ avrami_n))) /\
  avrami 0 = 0 /\
  (forall time, 0 <= time -> 0 <= avrami time < 1) /\
  (forall t1 t2, 0 <= t1 -> t1 < t2 -> avrami t1 < avrami t2) /\
  (forall eps, 0 < eps ->
     exists T, 0 <= T /\
       forall time, T <= time -> 1 - eps < avrami time < 1) /\
  (forall time increment,
     avrami_increment time increment
     = avrami (time + increment) - avrami time).
Proof.
  split; [reflexivity |]. split; [reflexivity |].
  split.
  { intros time. unfold avrami. f_equal. f_equal. ring. }
  split; [exact avrami_0 |].
  split.
  { intros time Ht. split; [apply avrami_nonneg; exact Ht | apply avrami_lt_1]. }
  split; [exact avrami_increasing |].
  split.
  { intros eps Heps. destruct (avrami_tends_to_1 eps Heps) as (T & HT & Hlim).
    exists T. split; [exact HT |]. intros time Htime.
    split; [apply Hlim; exact Htime | apply avrami_lt_1]. }
  reflexivity.
Qed.

Lemma avrami_law_witness :
  0 <= avrami 3 < 1 /\ avrami 1 < avrami 3 /\
  exists T, 0 <= T /\ forall time, T <= time -> 1 - 0.01 < avrami time < 1.
Proof.
  destruct avrami_law as (_ & _ & _ & _ & Hrange & Hmono & Hlim & _).
  split; [apply Hrange; lra |].
  split; [apply Hmono; lra |].
  apply Hlim; lra.
Defined.

(** A portion appended by iteration [k] is a fresh [Portion]. *)
Lemma appended_is_fresh
      (strain_critical strain_step time_step : R) (k i : nat) :
  appended_in strain_critical strain_step time_step k i ->
  exists x,
    0 < x /\
    nth_error (st_portions (after strain_critical strain_step k time_step)) i
    = Some (Portion_init x).
Proof.
  intros (Hk & Hi & Hlen).
  destruct k as [| k]; [lia |].
  replace (S k - 1)%nat with k in Hi by lia.
  cbn [after] in *. rewrite loop_body_portions in *.
  rewrite length_app, length_map, <- Hi in Hlen.
  destruct (Rlt_dec 0 _) as [Hpos | _]; cbn [length] in Hlen; [| lia].
  eexists. split; [exact Hpos |].
  rewrite nth_error_app2 by (rewrite length_map; lia).
  rewrite length_map, <- Hi, Nat.sub_diag. reflexivity.
Qed.



(** C5, in exact arithmetic.  Onset immutability: in a run with
    positive [strain_step] and [rate], a portion that the loop finds with strain below
    [strain_critical] has its start time unset and keeps it unset; one
    found at or above it with the start time unset gets the solver's
    current [t] as start time; a start time that is set is the same in
    every later state, and never exceeds the elapsed time. *)
Theorem onset_immutability
        (strain_critical strain_step rate : R) (n i : nat) (p : Portion) :
  0 < strain_step -> 0 < rate ->
  let run k := after strain_critical strain_step k (strain_step / rate) in
  nth_error (st_portions (run n)) i = Some p ->
  exists p',
    nth_error (st_portions (run (S n))) i = Some p' /\
    (strain p < strain_critical -> unset p /\ unset p') /\
    (strain_critical <= strain p -> unset p ->
     start_time p' = st_t (run n) /\ ~ unset p') /\
    (~ unset p ->
     forall m, (n <= m)%nat ->
       exists q,
         nth_error (st_portions (run m)) i = Some q /\
         start_time q = start_time p /\
         0 <= st_t (run m) - start_time q).
Proof.
  intros Hstep Hrate run Hnth.
  assert (Hdt : 0 < strain_step / rate)
    by (apply Rdiv_lt_0_compat; assumption).
  pose proof (after_start_time strain_critical strain_step
                (strain_step / rate) Hstep Hdt) as Hshape.
  eexists. split; [apply after_nth_step; exact Hnth |].
  split; [| split].
  - intros Hlt.
    destruct (visited_below strain_critical strain_step
                (st_t (after strain_critical strain_step n
                             (strain_step / rate)))
                (strain_step / rate) p Hlt) as (Hst & _).
    assert (Hun : unset p).
    { destruct (Hshape n i p Hnth) as [(Hun & _) | (_ & _ & Hs)];
        [exact Hun | lra]. }
    split; [exact Hun |]. unfold unset in *. rewrite Hst. exact Hun.
  - intros Hge Hun.
    destruct (visited_onset strain_critical strain_step
                (st_t (after strain_critical strain_step n
                             (strain_step / rate)))
                (strain_step / rate) p Hge Hun) as (Hst & _).
    split; [exact Hst |]. unfold unset. rewrite Hst.
    unfold run. apply Rle_not_lt. rewrite after_t.
    apply Rmult_le_pos; [apply pos_INR | lra].
  - intros Hset m Hnm.
    destruct (after_nth_later strain_critical strain_step
                (strain_step / rate) n (m - n) i p Hnth)
      as (q & Hq & _ & _ & Hst).
    replace (n + (m - n))%nat with m in Hq by lia.
    exists q. split; [exact Hq |].
    specialize (Hst Hset). split; [exact Hst |].
    destruct (Hshape m i q Hq) as [(Hun & _) | (_ & Hrange & _)].
    + unfold unset in *. lra.
    + unfold run. lra.
Qed.

(** ** What the solver does on non-positive inputs *)


Lemma solve_rate_zero
      (strain_critical strain_step strain_max : R) (fuel : nat) :
  luton_sellars_solve strain_critical strain_step strain_max fuel 0
  = Raise ZeroDivisionError.
Proof.
  unfold luton_sellars_solve.
  destruct (Req_dec_T 0 0) as [_ | Hne]; [reflexivity | now destruct Hne].
Qed.




(** ** The loop over rates *)

Lemma comprehension_run
      (strain_critical strain_step strain_max : R) (fuel : nat)
      (rates : list R) :
  0 < strain_step -> 0 < strain_max ->
  (iterations strain_step strain_max <= fuel)%nat ->
  (In 0 rates ->
   comprehension strain_critical strain_step strain_max fuel rates
   = Raise ZeroDivisionError) /\
  (~ In 0 rates ->
   comprehension strain_critical strain_step strain_max fuel rates
   = Ok (map (fun rate =>
                st_results
                  (after strain_critical strain_step
                         (iterations strain_step strain_max)
                         (strain_step / rate)))
             rates)).
Proof.
  intros Hstep Hmax Hfuel.
  induction rates as [| rate rest [IHbad IHgood]]; cbn [comprehension map].
  - split; [intros [] | reflexivity].
  - destruct (Req_dec_T rate 0) as [-> | Hrate].
    + rewrite solve_rate_zero. split; [reflexivity |].
      intros Hnot. exfalso. apply Hnot. left. reflexivity.
    + destruct (luton_sellars_solve_run strain_critical strain_step
                  strain_max rate fuel Hstep Hmax Hrate) as [-> _];
        [| exact Hfuel].
      split.
      * intros [Heq | Hin]; [congruence |]. rewrite (IHbad Hin). reflexivity.
      * intros Hnot. rewrite IHgood; [reflexivity |].
        intros Hin. apply Hnot. right. exact Hin.
Qed.

(** An exception of one run leaves the comprehension, whatever rates
    come after it. *)
Lemma comprehension_raises
      (strain_critical strain_step strain_max : R) (fuel : nat)
      (before later : list R) (rate : R) (frames : list (list Row))
      (e : Exception) :
  comprehension strain_critical strain_step strain_max fuel before
  = Ok frames ->
  luton_sellars_solve strain_critical strain_step strain_max fuel rate
  = Raise e ->
  comprehension strain_critical strain_step strain_max fuel
                (before ++ rate :: later)
  = Raise e.
Proof.
  revert frames. induction before as [| r rest IH]; intros frames Hok Hraise.
  - cbn [app comprehension]. rewrite Hraise. reflexivity.
  - cbn [app comprehension] in *.
    destruct (luton_sellars_solve strain_critical strain_step strain_max
                fuel r) as [frame | e' |]; try discriminate.
    destruct (comprehension strain_critical strain_step strain_max fuel
                rest) as [frames' | e' |] eqn:Hrest; try discriminate.
    rewrite (IH frames' eq_refl Hraise). reflexivity.
Qed.

(** C4, as the loop over rates behaves.  There is no isolation of
    failures: the runs are evaluated in order inside one list
    comprehension, so when the runs before some rate return and the
    run for that rate raises an exception, the whole evaluation ends
    with that exception, whatever rates follow; neither a partial table
    nor a list of failed rates is produced.  The run for the rate 0
    always raises: [ZeroDivisionError]. *)
Theorem batch_aborts_on_failure
        (strain_critical strain_step strain_max : R) (fuel : nat)
        (before later : list R) (rate : R) (frames : list (list Row))
        (e : Exception) :
  comprehension strain_critical strain_step strain_max fuel before
  = Ok frames ->
  luton_sellars_solve strain_critical strain_step strain_max fuel rate
  = Raise e ->
  results strain_critical strain_step strain_max fuel
          (before ++ rate :: later)
  = Raise e /\
  luton_sellars_solve strain_critical strain_step strain_max fuel 0
  = Raise ZeroDivisionError.
Proof.
  intros Hok Hraise. split.
  - unfold results.
    rewrite (comprehension_raises strain_critical strain_step strain_max
               fuel before later rate frames e Hok Hraise).
    reflexivity.
  - apply solve_rate_zero.
Qed.

Lemma batch_aborts_on_failure_witness :
  results Notebook.strain_critical Notebook.strain_step
          Notebook.strain_max 200 ([0.5] ++ 0 :: [1])
  = Raise ZeroDivisionError /\
  luton_sellars_solve Notebook.strain_critical Notebook.strain_step
                      Notebook.strain_max 200 0
  = Raise ZeroDivisionError.
Proof.
  assert (H1 : 0 < Notebook.strain_step)
    by (unfold Notebook.strain_step; lra).
  assert (H2 : 0 < Notebook.strain_max)
    by (unfold Notebook.strain_max; lra).
  assert (HN : (iterations Notebook.strain_step Notebook.strain_max
                <= 200)%nat).
  { unfold iterations, Notebook.strain_step, Notebook.strain_max.
    rewrite (Zceil_eq 200) by lra. cbn. lia. }
  destruct (comprehension_run Notebook.strain_critical Notebook.strain_step
              Notebook.strain_max 200 [0.5] H1 H2 HN) as [_ Hgood].
  assert (Hnz : ~ In 0 [0.5]) by (intros [H | []]; lra).
  apply (batch_aborts_on_failure Notebook.strain_critical
           Notebook.strain_step Notebook.strain_max 200 [0.5] [1] 0 _
           ZeroDivisionError (Hgood Hnz)).
  apply solve_rate_zero.
Defined.

(** C4 as stated fails: with the notebook's parameters and the rates
    [0.5; 0; 1] the run for 0.5 completes, the run for 0 divides by
    zero, and the whole evaluation ends with that error: the rows of
    the 0.5 run are not returned and the run for 1 is never started. *)
Lemma failure_isolation_counterexample :
  (exists rows,
     luton_sellars_solve Notebook.strain_critical Notebook.strain_step
                         Notebook.strain_max 200 0.5 = Ok rows) /\
  luton_sellars_solve Notebook.strain_critical Notebook.strain_step
                      Notebook.strain_max 200 0 = Raise ZeroDivisionError /\
  results Notebook.strain_critical Notebook.strain_step
          Notebook.strain_max 200 [0.5; 0; 1]
  = Raise ZeroDivisionError.
Proof.
  assert (H1 : 0 < Notebook.strain_step)
    by (unfold Notebook.strain_step; lra).
  assert (H2 : 0 < Notebook.strain_max)
    by (unfold Notebook.strain_max; lra).
  assert (HN : (iterations Notebook.strain_step Notebook.strain_max
                <= 200)%nat).
  { unfold iterations, Notebook.strain_step, Notebook.strain_max.
    rewrite (Zceil_eq 200) by lra. cbn. lia. }
  split; [| split].
  - destruct (solve_rows Notebook.strain_critical Notebook.strain_step
                Notebook.strain_max 0.5 200 H1 H2) as (rows & Hrun & _);
      [lra | exact HN |].
    exists rows. exact Hrun.
  - apply solve_rate_zero.
  - unfold results.
    destruct (comprehension_run Notebook.strain_critical
                Notebook.strain_step Notebook.strain_max 200 [0.5; 0; 1]
                H1 H2 HN) as [-> _]; [reflexivity |].
    right. left. reflexivity.
Qed.

(** ** The aggregate stress *)

Lemma fold_left_flow_stress (ps : list Portion) (acc : R) :
  fold_left (fun a p => a + portion p * flow_stress p) ps acc
  = acc + Rsum (map (fun p => portion p * flow_stress p) ps).
Proof.
  revert acc. induction ps as [| p ps IH]; intros acc; cbn [fold_left map Rsum].
  - ring.
  - rewrite IH. ring.
Qed.

Lemma sum_flow_stress_Rsum (ps : list Portion) :
  sum_flow_stress ps = Rsum (map (fun p => portion p * flow_stress p) ps).
Proof.
  unfold sum_flow_stress. rewrite fold_left_flow_stress. ring.
Qed.

Lemma ludwik_monotone (s1 s2 : R) :
  0 <= s1 -> s1 <= s2 -> ludwik s1 <= ludwik s2.
Proof.
  intros H1 [Hlt | ->]; [left; apply ludwik_increasing; assumption | lra].
Qed.

Lemma sum_flow_stress_nonneg (ps : list Portion) :
  Forall (fun p => 0 < portion p) ps -> 0 <= sum_flow_stress ps.
Proof.
  rewrite sum_flow_stress_Rsum.
  induction 1 as [| p ps Hp _ IH]; cbn [map Rsum]; [lra |].
  assert (Hl : 0 < flow_stress p) by apply ludwik_pos.
  pose proof (Rmult_lt_0_compat _ _ Hp Hl). lra.
Qed.

Lemma sum_flow_stress_pos (ps : list Portion) :
  ps <> [] -> Forall (fun p => 0 < portion p) ps -> 0 < sum_flow_stress ps.
Proof.
  intros Hne Hall. destruct Hall as [| p ps Hp Hall]; [contradiction |].
  pose proof (sum_flow_stress_nonneg ps Hall) as Hrest.
  rewrite sum_flow_stress_Rsum in *. cbn [map Rsum].
  assert (Hl : 0 < flow_stress p) by apply ludwik_pos.
  pose proof (Rmult_lt_0_compat _ _ Hp Hl). lra.
Qed.

(** The aggregate stress is a mean of the portions' stresses, weighted
    by the shares: it stays below the stress at any bound of the
    strains, strictly as soon as one portion is strictly below. *)
Lemma sum_flow_stress_le (bound : R) (ps : list Portion) :
  Forall (fun p => 0 < portion p /\ 0 <= strain p <= bound) ps ->
  sum_flow_stress ps <= total_portion ps * ludwik bound.
Proof.
  rewrite sum_flow_stress_Rsum.
  induction 1 as [| p ps (Hp & Hs) _ IH]; cbn [map Rsum total_portion];
    [lra |].
  assert (Hl : flow_stress p <= ludwik bound)
    by (apply ludwik_monotone; lra).
  assert (portion p * flow_stress p <= portion p * ludwik bound)
    by (apply Rmult_le_compat_l; lra).
  lra.
Qed.

Lemma sum_flow_stress_lt (bound : R) (ps : list Portion) (q : Portion) :
  Forall (fun p => 0 < portion p /\ 0 <= strain p <= bound) ps ->
  In q ps -> strain q < bound ->
  sum_flow_stress ps < total_portion ps * ludwik bound.
Proof.
  intros Hall. induction Hall as [| p ps (Hp & Hs) Hall IH];
    intros Hin Hq; [contradiction |].
  pose proof (sum_flow_stress_le bound ps Hall) as Hrest.
  rewrite sum_flow_stress_Rsum in *. cbn [map Rsum total_portion].
  destruct Hin as [-> | Hin].
  - assert (Hl : flow_stress q < ludwik bound)
      by (apply ludwik_increasing; lra).
    assert (portion q * flow_stress q < portion q * ludwik bound)
      by (apply Rmult_lt_compat_l; lra).
    lra.
  - specialize (IH Hin Hq).
    assert (Hl : flow_stress p <= ludwik bound)
      by (apply ludwik_monotone; lra).
    assert (portion p * flow_stress p <= portion p * ludwik bound)
      by (apply Rmult_le_compat_l; lra).
    lra.
Qed.

(** Every portion's strain lies between 0 and the solver's [strain]. *)
Lemma after_strain_bounds
      (strain_critical strain_step time_step : R) (n : nat) :
  0 < strain_step ->
  Forall (fun p =>
            0 <= strain p
            <= st_strain (after strain_critical strain_step n time_step))
         (st_portions (after strain_critical strain_step n time_step)).
Proof.
  intros Hstep. induction n as [| n IH].
  - cbn. constructor; [cbn; lra | constructor].
  - cbn [after]. rewrite loop_body_portions, loop_body_strain.
    apply Forall_app. split.
    + apply Forall_map. revert IH. apply Forall_impl. intros p Hp.
      rewrite visited_strain. lra.
    + destruct (Rlt_dec 0 _); constructor; [| constructor].
      cbn [strain Portion_init]. rewrite after_strain.
      pose proof (pos_INR n). nra.
Qed.

(** ** The onset of recrystallisation *)

(** While the initial portion is below the critical strain it is the
    whole population. *)
Lemma population_before_onset
      (strain_critical strain_step time_step : R) (n : nat) :
  (forall j, (j < n)%nat -> INR j * strain_step < strain_critical) ->
  length (st_portions (after strain_critical strain_step n time_step))
  = 1%nat.
Proof.
  induction n as [| n IH]; intros Hbelow; [reflexivity |].
  assert (Hlen : length (st_portions
                           (after strain_critical strain_step n time_step))
                 = 1%nat)
    by (apply IH; intros j Hj; apply Hbelow; lia).
  destruct (after_nth_later strain_critical strain_step time_step
              0 n 0 (Portion_init 1) eq_refl) as (p & Hnth & Hs & _).
  cbn [Nat.add strain Portion_init] in Hnth, Hs.
  cbn [after]. rewrite loop_body_portions, length_app, length_map, Hlen.
  unfold new_portion_of.
  destruct (st_portions (after strain_critical strain_step n time_step))
    as [| p0 [| p1 rest]]; try discriminate.
  cbn [nth_error] in Hnth. injection Hnth as ->.
  cbn [map Rsum].
  assert (Hlt : strain p < strain_critical).
  { rewrite Hs, Rplus_0_l. apply Hbelow. lia. }
  destruct (visited_below strain_critical strain_step
              (st_t (after strain_critical strain_step n time_step))
              time_step p Hlt) as (_ & _ & ->).
  destruct (Rlt_dec 0 (0 + 0)) as [Hpos | _]; [lra | reflexivity].
Qed.

(** The first iteration that finds the initial portion at or above the
    critical strain appends the second portion. *)
Lemma population_at_onset
      (strain_critical strain_step time_step : R) (n : nat) :
  0 < strain_step -> 0 < time_step ->
  (forall j, (j < n)%nat -> INR j * strain_step < strain_critical) ->
  strain_critical <= INR n * strain_step ->
  appended_in strain_critical strain_step time_step (S n) 1.
Proof.
  intros Hstep Hdt Hbelow Hreach.
  pose proof (population_before_onset strain_critical strain_step
                time_step n Hbelow) as Hlen.
  destruct (after_nth_later strain_critical strain_step time_step
              0 n 0 (Portion_init 1) eq_refl) as (p & Hnth & Hs & _).
  cbn [Nat.add strain Portion_init] in Hnth, Hs.
  split; [lia |]. replace (S n - 1)%nat with n by lia.
  split; [symmetry; exact Hlen |].
  cbn [after]. rewrite loop_body_portions, length_app, length_map, Hlen.
  assert (Hpos : 0 < new_portion_of strain_critical strain_step time_step
                       (after strain_critical strain_step n time_step)).
  { unfold new_portion_of.
    apply (Rsum_recrystallized_pos strain_critical strain_step _ _ _ p).
    - apply after_t_nonneg; assumption.
    - exact Hdt.
    - apply after_ok; assumption.
    - apply (nth_error_In _ _ Hnth).
    - rewrite Hs. lra. }
  destruct (Rlt_dec 0 _); [reflexivity | contradiction].
Qed.

(** Once a portion has been appended, the aggregate stress is strictly
    between 0 and the stress of the solver's own strain. *)
Lemma aggregate_stress_bounds
      (strain_critical strain_step time_step : R) (k i n : nat) :
  0 < strain_step -> 0 < time_step ->
  appended_in strain_critical strain_step time_step k i ->
  (k <= n)%nat ->
  0 < sum_flow_stress
        (st_portions (after strain_critical strain_step n time_step))
    < ludwik (INR n * strain_step).
Proof.
  intros Hstep Hdt Happ Hkn.
  destruct (appended_is_fresh _ _ _ _ _ Happ) as (x & _ & Hfresh).
  destruct (after_nth_later strain_critical strain_step time_step
              k (n - k) i (Portion_init x) Hfresh)
    as (q & Hq & Hqs & _).
  replace (k + (n - k))%nat with n in Hq by lia.
  cbn [strain Portion_init] in Hqs.
  pose proof (after_ok strain_critical strain_step time_step Hstep Hdt n)
    as Hok.
  pose proof (after_strain_bounds strain_critical strain_step time_step n
                Hstep) as Hb.
  pose proof (after_total strain_critical strain_step time_step Hstep Hdt n)
    as Htotal.
  rewrite after_strain in Hb.
  remember (st_portions (after strain_critical strain_step n time_step))
    as ps eqn:Eps.
  assert (Hpos : Forall (fun p => 0 < portion p) ps).
  { revert Hok. apply Forall_impl. intros p. apply portion_ok_positive. }
  assert (Hbounds : Forall (fun p => 0 < portion p /\
                                     0 <= strain p <= INR n * strain_step)
                           ps).
  { rewrite Forall_forall in *. intros p Hp. split; auto. }
  assert (Hqlt : strain q < INR n * strain_step).
  { rewrite Hqs. destruct Happ as (Hk & _).
    assert (Hlt : INR (n - k) < INR n) by (apply lt_INR; lia).
    nra. }
  pose proof (sum_flow_stress_lt _ ps q Hbounds (nth_error_In _ _ Hq) Hqlt)
    as Hupper.
  rewrite Htotal in Hupper.
  split; [| lra].
  apply sum_flow_stress_pos; [| exact Hpos].
  intros Hnil. rewrite Hnil in Hq. destruct i; discriminate.
Qed.

(** ** The notebook's scenario at rate 0.5 *)

Lemma notebook_iterations :
  iterations Notebook.strain_step Notebook.strain_max = 200%nat.
Proof.
  unfold iterations, Notebook.strain_step, Notebook.strain_max.
  rewrite (Zceil_eq 200) by lra. reflexivity.
Qed.

Lemma notebook_below_critical (j : nat) :
  (j < 25)%nat -> INR j * Notebook.strain_step < Notebook.strain_critical.
Proof.
  intros Hj. unfold Notebook.strain_step, Notebook.strain_critical.
  assert (Hle : INR j <= INR 24) by (apply le_INR; lia).
  rewrite (INR_IZR_INZ 24) in Hle. cbn in Hle. lra.
Qed.

Lemma notebook_at_critical :
  INR 25 * Notebook.strain_step = Notebook.strain_critical.
Proof.
  rewrite INR_IZR_INZ. cbn.
  unfold Notebook.strain_step, Notebook.strain_critical. lra.
Qed.

Lemma notebook_at_max :
  INR 200 * Notebook.strain_step = Notebook.strain_max.
Proof.
  rewrite INR_IZR_INZ. cbn.
  unfold Notebook.strain_step, Notebook.strain_max. lra.
Qed.

(** C9. The notebook's scenario ([strain_critical] 0.5, [strain_step]
    0.02, [strain_max] 4, Avrami constants 0.2 and 2, Ludwik constants
    100 and 0.2, rate 0.5): the initial portion is below the critical
    strain after fewer than 25 iterations and exactly at it after 25;
    the population is one portion after iteration 25 and two after
    iteration 26; the run returns 200 rows and the flow stress of the
    last row is strictly between 0 and [ludwik strain_max]. *)
Theorem notebook_scenario :
  let run n :=
    after Notebook.strain_critical Notebook.strain_step n
          (Notebook.strain_step / 0.5) in
  (Notebook.strain_critical = 0.5 /\ Notebook.strain_step = 0.02 /\
   Notebook.strain_max = 4 /\ avrami_k = 0.2 /\ avrami_n = 2%nat /\
   ludvig_k0 = 100 /\ ludvig_n = 0.2) /\
  (forall n, (n < 25)%nat ->
     exists p, nth_error (st_portions (run n)) 0 = Some p /\
               strain p < Notebook.strain_critical) /\
  (exists p, nth_error (st_portions (run 25%nat)) 0 = Some p /\
             strain p = Notebook.strain_critical) /\
  length (st_portions (run 25%nat)) = 1%nat /\
  length (st_portions (run 26%nat)) = 2%nat /\
  (forall fuel, (200 <= fuel)%nat ->
     exists rows row,
       luton_sellars_solve Notebook.strain_critical Notebook.strain_step
                           Notebook.strain_max fuel 0.5 = Ok rows /\
       length rows = 200%nat /\
       nth_error rows 199 = Some row /\
       0 < row_flow_stress row < ludwik Notebook.strain_max).
Proof.
  intros run. unfold run. clear run.
  assert (Hstep : 0 < Notebook.strain_step)
    by (unfold Notebook.strain_step; lra).
  assert (Hmax : 0 < Notebook.strain_max)
    by (unfold Notebook.strain_max; lra).
  assert (Hdt : 0 < Notebook.strain_step / 0.5)
    by (unfold Notebook.strain_step; lra).
  assert (Hinit : forall n,
            exists p,
              nth_error
                (st_portions
                   (after Notebook.strain_critical Notebook.strain_step n
                          (Notebook.strain_step / 0.5))) 0 = Some p /\
              strain p = INR n * Notebook.strain_step).
  { intros n.
    destruct (after_nth_later Notebook.strain_critical Notebook.strain_step
                (Notebook.strain_step / 0.5) 0 n 0 (Portion_init 1) eq_refl)
      as (p & Hnth & Hs & _).
    exists p. split; [exact Hnth |].
    rewrite Hs. cbn [strain Portion_init]. ring. }
  assert (Happ : appended_in Notebook.strain_critical Notebook.strain_step
                             (Notebook.strain_step / 0.5) 26 1).
  { apply population_at_onset; try assumption.
    - exact notebook_below_critical.
    - rewrite notebook_at_critical. lra. }
  split; [repeat split |].
  split.
  { intros n Hn. destruct (Hinit n) as (p & Hnth & Hs).
    exists p. split; [exact Hnth |].
    rewrite Hs. apply notebook_below_critical. exact Hn. }
  split.
  { destruct (Hinit 25%nat) as (p & Hnth & Hs).
    exists p. split; [exact Hnth |].
    rewrite Hs. exact notebook_at_critical. }
  split.
  { apply population_before_onset. exact notebook_below_critical. }
  split.
  { destruct Happ as (_ & _ & Hlen). exact Hlen. }
  intros fuel Hfuel.
  destruct (solve_rows Notebook.strain_critical Notebook.strain_step
              Notebook.strain_max 0.5 fuel Hstep Hmax)
    as (rows & Hrun & Hlen & Hnth);
    [lra | rewrite notebook_iterations; exact Hfuel |].
  rewrite notebook_iterations in Hlen, Hnth.
  pose proof (aggregate_stress_bounds Notebook.strain_critical
                Notebook.strain_step (Notebook.strain_step / 0.5)
                26 1 200 Hstep Hdt Happ) as Hstress.
  rewrite notebook_at_max in Hstress.
  exists rows. eexists.
  split; [exact Hrun |]. split; [exact Hlen |].
  split; [apply Hnth; lia |].
  apply Hstress. lia.
Qed.

Lemma notebook_scenario_witness :
  (exists p,
     nth_error
       (st_portions
          (after Notebook.strain_critical Notebook.strain_step 24
                 (Notebook.strain_step / 0.5))) 0 = Some p /\
     strain p < Notebook.strain_critical) /\
  exists rows row,
    luton_sellars_solve Notebook.strain_critical Notebook.strain_step
                        Notebook.strain_max 200 0.5 = Ok rows /\
    length rows = 200%nat /\
    nth_error rows 199 = Some row /\
    0 < row_flow_stress row < ludwik Notebook.strain_max.
Proof.
  pose proof notebook_scenario as H. cbv zeta in H.
  destruct H as (_ & Hbelow & _ & _ & _ & Hlast).
  split; [apply Hbelow; lia | apply Hlast; lia].
Defined.

(** ** Witnesses on the notebook's values *)

Lemma rows_couple_time_and_strain_witness :
  exists rows row,
    luton_sellars_solve Notebook.strain_critical Notebook.strain_step
                        Notebook.strain_max 200 0.5
    = Ok rows /\
    length rows = 200%nat /\
    nth_error rows 0 = Some row /\
    row_t row = INR (0 + 1) * Notebook.strain_step / 0.5 /\
    row_strain row = INR (0 + 1) * Notebook.strain_step /\
    row_t row * 0.5 = row_strain row.
Proof.
  assert (H1 : 0 < Notebook.strain_step)
    by (unfold Notebook.strain_step; lra).
  assert (H2 : 0 < Notebook.strain_max)
    by (unfold Notebook.strain_max; lra).
  assert (H3 : 0 < 0.5) by lra.
  assert (HN : (iterations Notebook.strain_step Notebook.strain_max
                <= 200)%nat) by (rewrite notebook_iterations; lia).
  destruct (rows_couple_time_and_strain Notebook.strain_critical
              Notebook.strain_step Notebook.strain_max 0.5 200
              H1 H2 H3 HN) as (rows & Hrun & Hlen & Hpos & Hrows).
  destruct (Hrows 0%nat Hpos) as (row & Hrow).
  exists rows, row. split; [exact Hrun |].
  split; [rewrite Hlen; exact notebook_iterations | exact Hrow].
Defined.

Lemma rate_ordering_witness :
  exists rows1 rows2 row1 row2,
    luton_sellars_solve Notebook.strain_critical Notebook.strain_step
                        Notebook.strain_max 200 0.1
    = Ok rows1 /\
    luton_sellars_solve Notebook.strain_critical Notebook.strain_step
                        Notebook.strain_max 200 0.2
    = Ok rows2 /\
    length rows1 = 200%nat /\
    length rows2 = 200%nat /\
    nth_error rows1 0 = Some row1 /\
    nth_error rows2 0 = Some row2 /\
    row_strain row1 = row_strain row2 /\
    row_t row2 < row_t row1.
Proof.
  assert (H1 : 0 < Notebook.strain_step)
    by (unfold Notebook.strain_step; lra).
  assert (H2 : 0 < Notebook.strain_max)
    by (unfold Notebook.strain_max; lra).
  assert (H3 : 0 < 0.1) by lra.
  assert (H4 : 0.1 < 0.2) by lra.
  assert (HN : (iterations Notebook.strain_step Notebook.strain_max
                <= 200)%nat) by (rewrite notebook_iterations; lia).
  destruct (rate_ordering Notebook.strain_critical Notebook.strain_step
              Notebook.strain_max 0.1 0.2 200 H1 H2 H3 H4 HN)
    as (rows1 & rows2 & Hrun1 & Hrun2 & Hlen1 & Hlen2 & Hpos & Hrows & _).
  destruct (Hrows 0%nat Hpos) as (row1 & row2 & Hrow).
  exists rows1, rows2, row1, row2.
  split; [exact Hrun1 |]. split; [exact Hrun2 |].
  split; [rewrite Hlen1; exact notebook_iterations |].
  split; [rewrite Hlen2; exact notebook_iterations | exact Hrow].
Defined.

Lemma onset_immutability_witness :
  let run k :=
    after Notebook.strain_critical Notebook.strain_step k
          (Notebook.strain_step / 0.5) in
  exists q p' r,
    nth_error (st_portions (run 25%nat)) 0 = Some q /\
    unset q /\
    nth_error (st_portions (run 26%nat)) 0 = Some p' /\
    start_time p' = st_t (run 25%nat) /\
    ~ unset p' /\
    nth_error (st_portions (run 200%nat)) 0 = Some r /\
    start_time r = start_time p' /\
    0 <= st_t (run 200%nat) - start_time r.
Proof.
  intros run. unfold run. clear run.
  assert (H1 : 0 < Notebook.strain_step)
    by (unfold Notebook.strain_step; lra).
  assert (H2 : 0 < 0.5) by lra.
  assert (Hdt : 0 < Notebook.strain_step / 0.5)
    by (unfold Notebook.strain_step; lra).
  destruct (after_nth_later Notebook.strain_critical Notebook.strain_step
              (Notebook.strain_step / 0.5) 0 25 0 (Portion_init 1)
              eq_refl) as (q & Hq & Hs & _).
  cbn [Nat.add strain Portion_init] in Hq, Hs.
  rewrite Rplus_0_l, notebook_at_critical in Hs.
  assert (Hun : unset q).
  { destruct (after_start_time Notebook.strain_critical
                Notebook.strain_step (Notebook.strain_step / 0.5)
                H1 Hdt 25 0 q Hq) as [(Hun & _) | (_ & _ & Hge)];
      [exact Hun | lra]. }
  assert (Hge : Notebook.strain_critical <= strain q) by lra.
  pose proof (onset_immutability Notebook.strain_critical
                Notebook.strain_step 0.5 25 0 q H1 H2 Hq) as Hset.
  cbv zeta in Hset.
  destruct Hset as (p' & Hp' & _ & Honset & _).
  destruct (Honset Hge Hun) as [Hstart Hnot].
  pose proof (onset_immutability Notebook.strain_critical
                Notebook.strain_step 0.5 26 0 p' H1 H2 Hp') as Hkept.
  cbv zeta in Hkept.
  destruct Hkept as (_ & _ & _ & _ & Hlater).
  assert (Hle : (26 <= 200)%nat) by lia.
  destruct (Hlater Hnot 200%nat Hle) as (r & Hr & Hsame & Hpos).
  exists q, p', r. repeat split; assumption.
Defined.

(** ** Exact arithmetic and binary64

    Where [Module Binary64] agrees with the exact solver and where it
    does not.  With the notebook's values the binary64 strain counter
    takes the same decisions as the exact one: the critical strain is
    reached by the 25th addition and the guard fails after the 200th.
    The lemmas after that are runs of the binary64 solver on inputs
    where a statement of exact arithmetic fails. *)

Lemma binary64_notebook_strain_counter :
  Binary64.guard_iterations 1000 Binary64.strain_step Binary64.strain_max
                            PrimFloat.zero = Some 200%nat /\
  PrimFloat.ltb (Binary64.accumulate 24 Binary64.strain_step PrimFloat.zero)
                Binary64.strain_critical = true /\
  PrimFloat.leb Binary64.strain_critical
                (Binary64.accumulate 25 Binary64.strain_step PrimFloat.zero)
  = true.
Proof. repeat split; vm_compute; reflexivity. Qed.

Lemma binary64_rounding_example :
  Binary64.guard_iterations 1000 Binary64.tenth PrimFloat.one
                            PrimFloat.zero = Some 11%nat /\
  iterations 0.1 1 = 10%nat.
Proof.
  split; [vm_compute; reflexivity |].
  unfold iterations. rewrite (Zceil_eq 10) by lra. reflexivity.
Qed.

(** A rate of 1e-200 is positive, and the run raises [OverflowError]
    at the first onset: the square of the time step is out of range. *)
Lemma binary64_overflow_example :
  PrimFloat.ltb PrimFloat.zero Binary64.tiny_rate = true /\
  Binary64.luton_sellars_solve Binary64.strain_critical Binary64.strain_step
                               Binary64.strain_max 1000 Binary64.tiny_rate
  = Binary64.OverflowError.
Proof. split; vm_compute; reflexivity. Qed.

(** C1 as stated fails: the rate 1e-320 is positive and the run
    returns its 200 rows, but the time step [strain_step / rate] is
    infinite, and at the first onset, in iteration 26, the time since
    the start is [inf - inf]: the share of the only portion is NaN, and
    so is the sum of the shares, which is not within 1e-9 of 1. *)
Lemma volume_conservation_counterexample :
  PrimFloat.ltb PrimFloat.zero Binary64.subnormal_rate = true /\
  (exists rows,
     Binary64.luton_sellars_solve Binary64.strain_critical
                                  Binary64.strain_step Binary64.strain_max
                                  1000 Binary64.subnormal_rate
     = Binary64.Value rows /\
     length rows = 200%nat) /\
  exists s,
    Binary64.after Binary64.strain_critical Binary64.strain_step 26
                   Binary64.subnormal_rate
    = Binary64.Value s /\
    PrimFloat.is_nan (Binary64.total_portion (Binary64.st_portions s))
    = true /\
    PrimFloat.leb
      (PrimFloat.abs
         (PrimFloat.sub (Binary64.total_portion (Binary64.st_portions s))
                        PrimFloat.one))
      Binary64.tolerance
    = false.
Proof.
  split; [vm_compute; reflexivity |]. split.
  - eexists. split; [vm_compute; reflexivity | reflexivity].
  - eexists. split; [vm_compute; reflexivity |].
    split; vm_compute; reflexivity.
Qed.

(** C2 as stated fails: with [strain_step = 0.1] and [strain_max = 1]
    (rate 1, and a critical strain that is never reached) the run
    returns 11 rows, and the ceiling of [1 / 0.1] is 10: ten additions
    of 0.1 give 0.9999999999999999. *)
Lemma termination_counterexample :
  (exists rows,
     Binary64.luton_sellars_solve Binary64.no_onset Binary64.tenth
                                  PrimFloat.one 1000 PrimFloat.one
     = Binary64.Value rows /\
     length rows = 11%nat) /\
  iterations 0.1 1 = 10%nat.
Proof.
  split.
  - eexists. split; [vm_compute; reflexivity | reflexivity].
  - unfold iterations. rewrite (Zceil_eq 10) by lra. reflexivity.
Qed.

(** C5 as stated fails: at the positive rate 1e-320 every elapsed time
    after the first step is infinite.  After iteration 26 the initial
    portion has its start time set, to infinity, and the elapsed time
    minus the start time is NaN, which is not [>= 0]. *)
Lemma onset_immutability_counterexample :
  PrimFloat.ltb PrimFloat.zero Binary64.subnormal_rate = true /\
  (exists rows,
     Binary64.luton_sellars_solve Binary64.strain_critical
                                  Binary64.strain_step Binary64.strain_max
                                  1000 Binary64.subnormal_rate
     = Binary64.Value rows /\
     length rows = 200%nat) /\
  exists s p,
    Binary64.after Binary64.strain_critical Binary64.strain_step 26
                   Binary64.subnormal_rate
    = Binary64.Value s /\
    nth_error (Binary64.st_portions s) 0 = Some p /\
    PrimFloat.ltb (Binary64.start_time p) PrimFloat.zero = false /\
    PrimFloat.leb PrimFloat.zero
                  (PrimFloat.sub (Binary64.st_t s) (Binary64.start_time p))
    = false.
Proof.
  split; [vm_compute; reflexivity |]. split.
  - eexists. split; [vm_compute; reflexivity | reflexivity].
  - eexists. eexists. split; [vm_compute; reflexivity |].
    split; [vm_compute; reflexivity |].
    split; vm_compute; reflexivity.
Qed.

(** C7 as stated fails: for the time 1e200, which is [>= 0], the code
    has no value, [time ** avrami_n] raises [OverflowError]; and for an
    infinite time, which a run at the rate 1e-320 passes in, the value
    is 1, outside [[0, 1)]. *)
Lemma avrami_law_counterexample :
  PrimFloat.leb PrimFloat.zero Binary64.huge_time = true /\
  Binary64.avrami Binary64.huge_time = Binary64.OverflowError /\
  PrimFloat.leb PrimFloat.zero PrimFloat.infinity = true /\
  Binary64.avrami PrimFloat.infinity = Binary64.Value PrimFloat.one.
Proof. repeat split; vm_compute; reflexivity. Qed.

(** C8 as stated fails: the rates 15 and the next float above 15 give
    the same time step, the quotient rounds to the same float, so the
    two runs return the same 200 rows: equal strains at equal times,
    not at a strictly later time. *)
Lemma rate_ordering_counterexample :
  PrimFloat.ltb Binary64.fifteen (PrimFloat.next_up Binary64.fifteen)
  = true /\
  exists rows,
    Binary64.luton_sellars_solve Binary64.no_onset Binary64.strain_step
                                 Binary64.strain_max 1000 Binary64.fifteen
    = Binary64.Value rows /\
    Binary64.luton_sellars_solve Binary64.no_onset Binary64.strain_step
                                 Binary64.strain_max 1000
                                 (PrimFloat.next_up Binary64.fifteen)
    = Binary64.Value rows /\
    length rows = 200%nat.
Proof.
  split; [vm_compute; reflexivity |].
  eexists. split; [vm_compute; reflexivity |].
  split; [vm_compute; reflexivity | reflexivity].
Qed.

(** * Further properties of the notebook's code *)

(** ** The laws *)



(** ** The population of a run *)

(** X3. Eligibility gating: in a run with positive [strain_step] and
    [rate], a portion that the loop finds below [strain_critical] still
    has its whole initial share, and the iteration leaves its share and
    its start time as they are; only its strain changes. *)
Theorem eligibility_gating
        (strain_critical strain_step rate : R) (n i : nat) (p : Portion) :
  0 < strain_step -> 0 < rate ->
  nth_error
    (st_portions
       (after strain_critical strain_step n (strain_step / rate))) i
  = Some p ->
  strain p < strain_critical ->
  portion p = start_portion p /\
  exists p',
    nth_error
      (st_portions
         (after strain_critical strain_step (S n) (strain_step / rate))) i
    = Some p' /\
    portion p' = portion p /\
    start_time p' = start_time p /\
    start_portion p' = start_portion p.
Proof.
  intros Hstep Hrate Hnth Hlt.
  assert (Hdt : 0 < strain_step / rate)
    by (apply Rdiv_lt_0_compat; assumption).
  split.
  - destruct (after_start_time strain_critical strain_step
                (strain_step / rate) Hstep Hdt n i p Hnth)
      as [(_ & _ & Hp) | (_ & _ & Hs)]; [exact Hp | lra].
  - eexists. split; [apply after_nth_step; exact Hnth |].
    destruct (visited_below strain_critical strain_step
                (st_t (after strain_critical strain_step n
                             (strain_step / rate)))
                (strain_step / rate) p Hlt) as (Hst & Hp & _).
    rewrite visited_start_portion. auto.
Qed.

Lemma eligibility_gating_witness :
  portion (Portion_init 1) = start_portion (Portion_init 1) /\
  exists p',
    nth_error
      (st_portions
         (after Notebook.strain_critical Notebook.strain_step 1
                (Notebook.strain_step / 0.5))) 0
    = Some p' /\
    portion p' = portion (Portion_init 1) /\
    start_time p' = start_time (Portion_init 1) /\
    start_portion p' = start_portion (Portion_init 1).
Proof.
  apply (eligibility_gating Notebook.strain_critical Notebook.strain_step
           0.5 0 0 (Portion_init 1));
    [unfold Notebook.strain_step; lra | lra | reflexivity |].
  cbn. unfold Notebook.strain_critical. lra.
Defined.

(** X5. The population is append-only: from one state of the loop to a
    later one the number of portions does not decrease and grows by at
    most one per iteration, and every portion keeps its position and
    its initial share.  This needs no assumption on the parameters. *)
Theorem population_append_only
        (strain_critical strain_step time_step : R) (n m : nat) :
  (n <= m)%nat ->
  let run k := after strain_critical strain_step k time_step in
  (length (st_portions (run n)) <= length (st_portions (run m))
   <= length (st_portions (run n)) + (m - n))%nat /\
  (1 <= length (st_portions (run n)) <= n + 1)%nat /\
  forall i p,
    nth_error (st_portions (run n)) i = Some p ->
    exists p',
      nth_error (st_portions (run m)) i = Some p' /\
      start_portion p' = start_portion p.
Proof.
  intros Hnm run. unfold run. clear run.
  split; [| split].
  - induction Hnm as [| m Hnm IH]; [lia |].
    pose proof (after_portions_length strain_critical strain_step
                  time_step m). lia.
  - clear Hnm m. induction n as [| n IH]; [cbn; lia |].
    pose proof (after_portions_length strain_critical strain_step
                  time_step n). lia.
  - intros i p Hnth.
    destruct (after_nth_later strain_critical strain_step time_step
                n (m - n) i p Hnth) as (p' & Hp' & _ & Hsp & _).
    replace (n + (m - n))%nat with m in Hp' by lia.
    exists p'. split; assumption.
Qed.

Lemma population_append_only_witness :
  (length (st_portions
             (after Notebook.strain_critical Notebook.strain_step 3
                    (Notebook.strain_step / 0.5)))
   <= length (st_portions
                (after Notebook.strain_critical Notebook.strain_step 7
                       (Notebook.strain_step / 0.5))))%nat.
Proof.
  assert (H : (3 <= 7)%nat) by lia.
  exact (proj1 (proj1 (population_append_only Notebook.strain_critical
                         Notebook.strain_step
                         (Notebook.strain_step / 0.5) 3 7 H))).
Defined.



(** ** The combined table *)

Lemma comprehension_length
      (strain_critical strain_step strain_max : R) (fuel : nat)
      (rates : list R) (frames : list (list Row)) :
  comprehension strain_critical strain_step strain_max fuel rates
  = Ok frames ->
  length frames = length rates.
Proof.
  revert frames. induction rates as [| rate rest IH]; intros frames Hok;
    cbn [comprehension] in Hok.
  - injection Hok as <-. reflexivity.
  - destruct (luton_sellars_solve strain_critical strain_step strain_max
                fuel rate) as [frame | e |]; try discriminate.
    destruct (comprehension strain_critical strain_step strain_max fuel
                rest) as [frames' | e |]; try discriminate.
    injection Hok as <-. cbn [length]. f_equal. apply IH. reflexivity.
Qed.

Lemma concat_keys_columns (keys : list R) (frames : list (list Row)) :
  length frames = length keys ->
  map fst (concat_keys keys frames)
  = flat_map (fun kf => repeat (fst kf) (length (snd kf)))
             (combine keys frames) /\
  map snd (concat_keys keys frames) = concat frames.
Proof.
  revert frames. induction keys as [| key keys IH]; intros frames Hlen;
    destruct frames as [| frame frames]; try discriminate;
    cbn [concat_keys combine flat_map concat map]; [auto |].
  destruct (IH frames) as [IHk IHr]; [cbn in Hlen; lia |].
  rewrite !map_app, !map_map, IHk, IHr. cbn [fst snd]. split.
  - f_equal. induction frame as [| r l IHf]; cbn; [reflexivity | now rewrite IHf].
  - f_equal. apply map_id.
Qed.

(** X10. Shape of the combined table.  Whenever the runs for a
    non-empty list of rates all return, the table lists them in the
    order of the rates: there is one frame per rate, the rate column
    repeats each rate once for every row of that rate's run, and the
    other columns are the rows of the runs one after the other.  Equal
    rates are not merged. *)
Theorem combined_table_shape
        (strain_critical strain_step strain_max : R) (fuel : nat)
        (rates : list R) (frames : list (list Row)) :
  rates <> [] ->
  comprehension strain_critical strain_step strain_max fuel rates
  = Ok frames ->
  exists table,
    results strain_critical strain_step strain_max fuel rates = Ok table /\
    length frames = length rates /\
    map fst table
    = flat_map (fun kf => repeat (fst kf) (length (snd kf)))
               (combine rates frames) /\
    map snd table = concat frames.
Proof.
  intros Hne Hok.
  pose proof (comprehension_length _ _ _ _ _ _ Hok) as Hlen.
  exists (concat_keys rates frames). split.
  - unfold results. rewrite Hok.
    destruct frames as [| frame frames']; [| reflexivity].
    destruct rates; [contradiction | discriminate].
  - split; [exact Hlen |]. apply concat_keys_columns. exact Hlen.
Qed.

Lemma combined_table_shape_witness :
  exists frames table,
    comprehension Notebook.strain_critical Notebook.strain_step
                  Notebook.strain_max 200 Notebook.rates = Ok frames /\
    results Notebook.strain_critical Notebook.strain_step
            Notebook.strain_max 200 Notebook.rates = Ok table /\
    length frames = length Notebook.rates /\
    map fst table
    = flat_map (fun kf => repeat (fst kf) (length (snd kf)))
               (combine Notebook.rates frames) /\
    map snd table = concat frames.
Proof.
  assert (H1 : 0 < Notebook.strain_step)
    by (unfold Notebook.strain_step; lra).
  assert (H2 : 0 < Notebook.strain_max)
    by (unfold Notebook.strain_max; lra).
  assert (HN : (iterations Notebook.strain_step Notebook.strain_max
                <= 200)%nat) by (rewrite notebook_iterations; lia).
  destruct (comprehension_run Notebook.strain_critical Notebook.strain_step
              Notebook.strain_max 200 Notebook.rates H1 H2 HN)
    as [_ Hgood].
  assert (Hnz : ~ In 0 Notebook.rates).
  { unfold Notebook.rates. intros [H | [H | [H | [H | []]]]]; lra. }
  assert (Hne : Notebook.rates <> []) by discriminate.
  destruct (combined_table_shape Notebook.strain_critical
              Notebook.strain_step Notebook.strain_max 200 Notebook.rates
              _ Hne (Hgood Hnz)) as (table & Htable).
  eexists. exists table. split; [exact (Hgood Hnz) | exact Htable].
Defined.
